(** * iotex-core: account state, server orchestration and test explorer

    A shallow embedding of [state/state.go] (package [state]), of
    [server/itx/server.go] (package [itx]) and of
    [explorer/testexplorer.go] (package [explorer]), with the properties of
    the specification that concern them and further properties of the code.

    - Package [state] works on [*big.Int] objects that are mutated in place
      ([z.Add(x, y)] writes [z]).  The embedding keeps a store of [big.Int]
      objects, of byte arrays and of Go maps; pointers are locations of that
      store, [nil] is [None], and dereferencing [nil] panics.
    - Package [itx] only sequences calls of other components.  Its functions
      are embedded as programs over the calls they make; running a program
      against an environment gives the trace of calls and the outcome.
    - The test explorer answers every query with random numbers.  Its
      functions are embedded as functions of a random source, the sequence
      of numbers that the generator gives. *)

From Stdlib Require Import ZArith.
From Stdlib.Strings Require Import Byte.
From Stdlib Require Import DecimalString DecimalZ DecimalPos.
From stdpp Require Import gmap strings list fin_maps.

Set Default Proof Using "Type".

(* ===================================================================== *)
(** * Package [state] *)
(* ===================================================================== *)

Module state.

(** ** The store *)

(** A location of the store. *)
Abbreviation loc := positive.

(** A Go pointer: [nil] or the location of an object. *)
Abbreviation ptr := (option loc).

(** A non-nil [[]byte]: a window of [len] bytes starting at offset [off] of
    the backing array stored at [base].  The nil slice is [None]. *)
Record slice_hdr := mkSlice { base : loc; off : nat; len : nat }.

Abbreviation slice := (option slice_hdr).

(** The store: [big.Int] objects (their value), backing arrays of byte
    slices, and map objects ([map[string]*big.Int]). *)
Record Heap := mkHeap {
  ints : gmap loc Z;
  arrays : gmap loc (list byte);
  maps : gmap loc (gmap string ptr)
}.

Definition set_ints (h : Heap) (m : gmap loc Z) : Heap :=
  {| ints := m; arrays := arrays h; maps := maps h |}.

Definition set_arrays (h : Heap) (m : gmap loc (list byte)) : Heap :=
  {| ints := ints h; arrays := m; maps := maps h |}.

(** What a call does: it returns a value and a new store, or it panics
    (nil pointer dereference). *)
Inductive outcome (A : Type) : Type :=
| Ok (a : A)
| Panic.
Arguments Ok {A} a.
Arguments Panic {A}.

Definition M (A : Type) : Type := Heap -> outcome (A * Heap).

Definition ret {A} (a : A) : M A := fun h => Ok (a, h).

Definition bind {A B} (m : M A) (k : A -> M B) : M B :=
  fun h => match m h with
           | Ok (a, h') => k a h'
           | Panic => Panic
           end.

Notation "x <- m ;; k" := (bind m (fun x => k))
  (at level 100, m at next level, right associativity).

(** ** [math/big]: the operations of [*big.Int] that the package uses *)

(** Reading the value of [x]; [x] must not be nil. *)
Definition Int_val (x : ptr) : M Z :=
  fun h => match x with
           | Some l => match ints h !! l with
                       | Some v => Ok (v, h)
                       | None => Panic
                       end
           | None => Panic
           end.

(** Overwriting the value of [z]; [z] must not be nil. *)
Definition Int_store (z : ptr) (v : Z) : M unit :=
  fun h => match z with
           | Some l => match ints h !! l with
                       | Some _ => Ok (tt, set_ints h (<[l := v]> (ints h)))
                       | None => Panic
                       end
           | None => Panic
           end.

(** [new(big.Int)]: a fresh object of value 0. *)
Definition new_Int : M ptr :=
  fun h => let l := fresh (dom (ints h)) in
           Ok (Some l, set_ints h (<[l := 0%Z]> (ints h))).

(** [z.Add(x, y)]: sets [z] to [x + y] and returns [z]. *)
Definition Int_Add (z x y : ptr) : M ptr :=
  a <- Int_val x ;; b <- Int_val y ;; _ <- Int_store z (a + b)%Z ;; ret z.

(** [z.Sub(x, y)]: sets [z] to [x - y] and returns [z]. *)
Definition Int_Sub (z x y : ptr) : M ptr :=
  a <- Int_val x ;; b <- Int_val y ;; _ <- Int_store z (a - b)%Z ;; ret z.

(** [z.Set(x)]: sets [z] to [x] and returns [z]. *)
Definition Int_Set (z x : ptr) : M ptr :=
  a <- Int_val x ;; _ <- Int_store z a ;; ret z.

(** [x.Cmp(y)]: -1 if [x < y], 0 if [x == y], +1 if [x > y]. *)
Definition Int_Cmp (x y : ptr) : M Z :=
  a <- Int_val x ;; b <- Int_val y ;;
  ret (match (a ?= b)%Z with Lt => (-1)%Z | Eq => 0%Z | Gt => 1%Z end).

(** ** Byte slices: [len], [make] and [copy] *)

Definition slice_len (s : slice) : nat :=
  match s with Some sl => len sl | None => 0 end.

(** [make([]byte, n)]: a fresh array of [n] zero bytes. *)
Definition make_bytes (n : nat) : M slice :=
  fun h => let l := fresh (dom (arrays h)) in
           Ok (Some (mkSlice l 0 n),
               set_arrays h (<[l := replicate n x00]> (arrays h))).

(** The bytes a slice shows. *)
Definition slice_bytes (h : Heap) (s : slice) : list byte :=
  match s with
  | Some sl => match arrays h !! base sl with
               | Some a => take (len sl) (drop (off sl) a)
               | None => []
               end
  | None => []
  end.

(** [copy(dst, src)]: copies [min(len(dst), len(src))] bytes and returns
    that number. *)
Definition copy (dst src : slice) : M nat :=
  fun h => match dst, src with
           | Some d, Some s =>
               match arrays h !! base d with
               | Some da =>
                   let n := min (len d) (len s) in
                   let data := take n (slice_bytes h src) in
                   Ok (n, set_arrays h
                            (<[base d := take (off d) da ++ data
                                         ++ drop (off d + n) da]> (arrays h)))
               | None => Panic
               end
           | _, _ => Ok (0, h)
           end.

(** ** The account state *)

(** The errors of the package (declared in another file of the package). *)
Inductive error : Type :=
| ErrNotEnoughBalance
| ErrFailedToMarshalState
| ErrFailedToUnmarshalState.

(** [State] is the canonical representation of an account.  [Root] is a
    32-byte array, held by value. *)
Record State := mkState {
  Nonce : Z;
  Balance : ptr;
  Root : list byte;
  CodeHash : slice;
  IsCandidate : bool;
  VotingWeight : ptr;
  Votee : string;
  Voters : ptr
}.

Definition set_Balance (s : State) (v : ptr) : State :=
  mkState (Nonce s) v (Root s) (CodeHash s) (IsCandidate s)
          (VotingWeight s) (Votee s) (Voters s).

Definition set_VotingWeight (s : State) (v : ptr) : State :=
  mkState (Nonce s) (Balance s) (Root s) (CodeHash s) (IsCandidate s)
          v (Votee s) (Voters s).

Definition set_CodeHash (s : State) (v : slice) : State :=
  mkState (Nonce s) (Balance s) (Root s) v (IsCandidate s)
          (VotingWeight s) (Votee s) (Voters s).

Definition set_Voters (s : State) (v : ptr) : State :=
  mkState (Nonce s) (Balance s) (Root s) (CodeHash s) (IsCandidate s)
          (VotingWeight s) (Votee s) v.

(** [len(m)] of a map: 0 for the nil map. *)
Definition map_len (h : Heap) (m : ptr) : nat :=
  match m with
  | Some l => match maps h !! l with Some mo => size mo | None => 0 end
  | None => 0
  end.

(** The receiver [st *State] of the methods below is modelled by the struct
    it points to: the methods read the fields of [*st] and write none of
    them ([clone] writes to its own copy [s] only). *)

(** [AddBalance] adds balance for state. *)
Definition AddBalance (st : State) (amount : ptr) : M (option error) :=
  _ <- Int_Add (Balance st) (Balance st) amount ;;
  ret None.

(** [SubBalance] subtracts balance for state. *)
Definition SubBalance (st : State) (amount : ptr) : M (option error) :=
  c <- Int_Cmp amount (Balance st) ;;
  if (c =? 1)%Z then ret (Some ErrNotEnoughBalance)
  else
    _ <- Int_Sub (Balance st) (Balance st) amount ;;
    ret None.

Definition clone (st : State) : M State :=
  let s := st in
  let s := set_Balance s None in
  b <- new_Int ;; b <- Int_Set b (Balance st) ;;
  let s := set_Balance s b in
  let s := set_VotingWeight s None in
  w <- new_Int ;; w <- Int_Set w (VotingWeight st) ;;
  let s := set_VotingWeight s w in
  s <- match CodeHash st with
       | Some _ =>
           let s := set_CodeHash s None in
           c <- make_bytes (slice_len (CodeHash st)) ;;
           let s := set_CodeHash s c in
           _ <- copy (CodeHash s) (CodeHash st) ;;
           ret s
       | None => ret s
       end ;;
  let s := set_Voters s None in
  ret s.

(** A non-nil slice is well formed when its backing array exists and the
    window lies inside it (every slice a Go program can build is). *)
Definition slice_ok (h : Heap) (s : slice) : Prop :=
  match s with
  | Some sl => exists a, arrays h !! base sl = Some a
                         /\ off sl + len sl <= length a
  | None => True
  end.

(** ** Sample values *)

(** A store with three [big.Int] objects (100, 30 and 130), one array of
    four bytes and one map object with a single voter. *)
Definition heap0 : Heap :=
  mkHeap (<[1%positive := 100%Z]> (<[2%positive := 30%Z]>
            (<[3%positive := 130%Z]> ∅)))
         (<[1%positive := [x0a; x0b; x0c; x0d]]> ∅)
         (<[1%positive := <["io1voter" := Some 2%positive]> ∅]> ∅).

(** An account whose balance is object 1, whose voting weight is object 2,
    with a two-byte code hash (bytes 1 and 2 of array 1) and a voters map. *)
Definition st0 : State :=
  mkState 7 (Some 1%positive) (replicate 32 x00)
          (Some (mkSlice 1%positive 1 2)) true (Some 2%positive) "io1votee"
          (Some 1%positive).

(** The same account before any voting weight was given to it: the
    [VotingWeight] pointer is nil. *)
Definition st_noweight : State := set_VotingWeight st0 None.

(** The zero value [State{}]: every pointer is nil. *)
Definition State_zero : State :=
  mkState 0 None (replicate 32 x00) None false None "" None.

(** The sample store with one more [big.Int], of negative value. *)
Definition heap_debt : Heap :=
  set_ints heap0 (<[4%positive := (-150)%Z]> (ints heap0)).

End state.

(* ===================================================================== *)
(** * Package [itx] *)
(* ===================================================================== *)

Module itx.

(** ** What the package imports *)

(** The types and functions of the other packages ([config], [pb],
    [action], [blockchain], ...) that [server.go] mentions.  Their
    declarations are not part of this development: they are parameters.
    A struct declared elsewhere comes with the fields the code reads, a
    generated protobuf message with its getters, an [action] type with its
    zero value and its [ConvertFromActionPb] (the receiver after the call). *)
Class Imports := {
  context_Context : Type;
  proto_Message : Type;
  (* config *)
  config_Config : Type;
  config_Network : Type;
  config_ActPool : Type;
  config_Explorer : Type;
  Chain_EnableFallBackToFreshDB : config_Config -> bool;
  Chain_ChainDBPath : config_Config -> string;
  Chain_TrieDBPath : config_Config -> string;
  cfg_Network : config_Config -> config_Network;
  cfg_ActPool : config_Config -> config_ActPool;
  cfg_Explorer : config_Config -> config_Explorer;
  Explorer_IsTest : config_Explorer -> bool;
  (* pb *)
  pb_ActionPb : Type;
  pb_TransferPb : Type;
  pb_VotePb : Type;
  pb_ExecutionPb : Type;
  pb_BlockSync : Type;
  GetTransfer : pb_ActionPb -> option pb_TransferPb;
  GetVote : pb_ActionPb -> option pb_VotePb;
  GetExecution : pb_ActionPb -> option pb_ExecutionPb;
  (* action *)
  action_Transfer : Type;
  action_Vote : Type;
  action_Execution : Type;
  Transfer_zero : action_Transfer;
  Vote_zero : action_Vote;
  Execution_zero : action_Execution;
  Transfer_ConvertFromActionPb : action_Transfer -> pb_ActionPb -> action_Transfer;
  Vote_ConvertFromActionPb : action_Vote -> pb_ActionPb -> action_Vote;
  Execution_ConvertFromActionPb :
    action_Execution -> pb_ActionPb -> action_Execution;
  (* the components: what an interface value or a pointer refers to *)
  blockchain_Block : Type;
  blockchain_Blockchain : Type;
  actpool_ActPool : Type;
  network_Overlay : Type;
  consensus_Consensus : Type;
  blocksync_BlockSync : Type;
  dispatcher_Dispatcher : Type;
  explorer_Server : Type
}.

(** A Go [error] that is not nil: one made elsewhere, or one wrapped by
    [errors.Wrap] with a message. *)
Inductive error : Type :=
| errors_New (msg : string)
| errors_Wrap (err : error) (message : string).

(** The options of [blockchain.NewBlockchain]. *)
Inductive blockchain_Option : Type :=
| DefaultStateFactoryOption
| BoltDBDaoOption
| InMemStateFactoryOption
| InMemDaoOption.

(** The [logger] package: an event has a level and fields, and is written
    when [Msg] is called on it. *)
Inductive Level : Type := Debug | Warn | Error | Fatal.

Inductive Field : Type :=
| F_Err (err : error)
| F_Uint32 (key : string) (v : Z).

(** How the run of a function ends: it returns, it panics, or the process
    exits. *)
Inductive Outcome (R : Type) : Type :=
| Returned (r : R)
| Panicked
| Exited.
Arguments Returned {R} r.
Arguments Panicked {R}.
Arguments Exited {R}.

Section Programs.
Context `{Imports}.

(** An interface value or a pointer: [nil] or a component. *)
Definition nilable (A : Type) : Type := option A.

Record bcService := mk_bcService {
  ap : nilable actpool_ActPool;
  bs : nilable blocksync_BlockSync;
  cs : nilable consensus_Consensus
}.

(** The six components that [Server] starts and stops. *)
Inductive Component : Type :=
| C_chain (c : blockchain_Blockchain)
| C_dispatcher (d : dispatcher_Dispatcher)
| C_consensus (c : consensus_Consensus)
| C_blocksync (b : blocksync_BlockSync)
| C_p2p (p : network_Overlay)
| C_explorer (e : explorer_Server).

(** The calls that leave the package, indexed by the type of what they
    return.  A method is named after its interface; its first argument is
    the (non-nil) receiver. *)
Inductive Eff : Type -> Type :=
| blockchain_NewBlockchain (cfg : config_Config)
    (opts : list blockchain_Option) : Eff (nilable blockchain_Blockchain)
| Blockchain_ChainID (c : blockchain_Blockchain) : Eff Z
| os_Rename (oldpath newpath : string) : Eff (option error)
| os_Getenv (key : string) : Eff string
| logger_Event (lvl : Level) (fields : list Field) (msg : option string)
    : Eff unit
| network_NewOverlay (cfg : config_Network) : Eff (nilable network_Overlay)
| actpool_NewActPool (chain : nilable blockchain_Blockchain)
    (cfg : config_ActPool) : Eff (nilable actpool_ActPool * option error)
| blocksync_NewBlockSyncer (cfg : config_Config)
    (chain : nilable blockchain_Blockchain) (ap : nilable actpool_ActPool)
    (p2p : nilable network_Overlay)
    : Eff (nilable blocksync_BlockSync * option error)
| consensus_NewConsensus (cfg : config_Config)
    (chain : nilable blockchain_Blockchain) (ap : nilable actpool_ActPool)
    (p2p : nilable network_Overlay) : Eff (nilable consensus_Consensus)
| dispatch_NewDispatcher (cfg : config_Config)
    : Eff (nilable dispatcher_Dispatcher * option error)
| Dispatcher_AddSubscriber (d : dispatcher_Dispatcher) (chainID : Z)
    (sub : bcService) : Eff unit
| Overlay_AttachDispatcher (p : network_Overlay)
    (d : nilable dispatcher_Dispatcher) : Eff unit
| explorer_NewTestSever (cfg : config_Explorer) : Eff (nilable explorer_Server)
| explorer_NewServer (cfg : config_Explorer)
    (chain : nilable blockchain_Blockchain)
    (consensus : nilable consensus_Consensus)
    (dispatcher : nilable dispatcher_Dispatcher)
    (actPool : nilable actpool_ActPool) (p2p : nilable network_Overlay)
    : Eff (nilable explorer_Server)
| Component_Start (x : Component) (ctx : context_Context) : Eff (option error)
| Component_Stop (x : Component) (ctx : context_Context) : Eff (option error)
| ActPool_AddTsf (a : actpool_ActPool) (tsf : action_Transfer)
    : Eff (option error)
| ActPool_AddVote (a : actpool_ActPool) (vote : action_Vote)
    : Eff (option error)
| ActPool_AddExecution (a : actpool_ActPool) (execution : action_Execution)
    : Eff (option error)
| BlockSync_ProcessBlock (b : blocksync_BlockSync) (blk : blockchain_Block)
    : Eff (option error)
| BlockSync_ProcessBlockSync (b : blocksync_BlockSync)
    (blk : blockchain_Block) : Eff (option error)
| BlockSync_ProcessSyncRequest (b : blocksync_BlockSync) (sender : string)
    (sync : pb_BlockSync) : Eff (option error)
| Consensus_HandleViewChange (c : consensus_Consensus) (msg : proto_Message)
    : Eff (option error)
| Consensus_HandleBlockPropose (c : consensus_Consensus)
    (msg : proto_Message) : Eff (option error).

(** A function of the package: it returns, panics (a method called on nil),
    ends the process ([logger.Fatal]), or makes a call and goes on with
    what the call returns. *)
Inductive Prog (R : Type) : Type :=
| Ret (r : R)
| Panic
| Exit
| Vis {X : Type} (e : Eff X) (k : X -> Prog R).
Arguments Ret {R} r.
Arguments Panic {R}.
Arguments Exit {R}.
Arguments Vis {R X} e k.

Fixpoint bind {A B} (p : Prog A) (k : A -> Prog B) : Prog B :=
  match p with
  | Ret a => k a
  | Panic => Panic
  | Exit => Exit
  | Vis e h => Vis e (fun x => bind (h x) k)
  end.

Definition call {X} (e : Eff X) : Prog X := Vis e Ret.

(** The receiver of a method call: calling a method on nil panics. *)
Definition recv {A} (o : nilable A) : Prog A :=
  match o with
  | Some a => Ret a
  | None => Panic
  end.

End Programs.

Arguments Ret {_ R} r.
Arguments Panic {_ R}.
Arguments Exit {_ R}.
Arguments Vis {_ R X} e k.

Notation "x <- m ;; k" := (bind m (fun x => k))
  (at level 100, m at next level, right associativity).

Section Package.
Context `{Imports}.

(** ** [bcService]: the subscriber of the dispatcher *)

Definition HandleAction (bcs : bcService) (act : pb_ActionPb)
  : Prog (option error) :=
  match GetTransfer act with
  | Some pbTsf =>
      let tsf := Transfer_zero in
      let tsf := Transfer_ConvertFromActionPb tsf act in
      a <- recv (ap bcs) ;;
      err <- call (ActPool_AddTsf a tsf) ;;
      match err with
      | Some e =>
          _ <- call (logger_Event Debug [F_Err e] None) ;;
          Ret (Some e)
      | None => Ret None
      end
  | None =>
      match GetVote act with
      | Some pbVote =>
          let vote := Vote_zero in
          let vote := Vote_ConvertFromActionPb vote act in
          a <- recv (ap bcs) ;;
          err <- call (ActPool_AddVote a vote) ;;
          match err with
          | Some e =>
              _ <- call (logger_Event Debug [F_Err e] None) ;;
              Ret (Some e)
          | None => Ret None
          end
      | None =>
          match GetExecution act with
          | Some pbExecution =>
              let execution := Execution_zero in
              let execution := Execution_ConvertFromActionPb execution act in
              a <- recv (ap bcs) ;;
              err <- call (ActPool_AddExecution a execution) ;;
              match err with
              | Some e =>
                  _ <- call (logger_Event Debug [F_Err e]
                               (Some "Failed to add execution")) ;;
                  Ret (Some e)
              | None => Ret None
              end
          | None => Ret None
          end
      end
  end.

Definition HandleBlock (bcs : bcService) (blk : blockchain_Block)
  : Prog (option error) :=
  b <- recv (bs bcs) ;; call (BlockSync_ProcessBlock b blk).

Definition HandleBlockSync (bcs : bcService) (blk : blockchain_Block)
  : Prog (option error) :=
  b <- recv (bs bcs) ;; call (BlockSync_ProcessBlockSync b blk).

Definition HandleSyncRequest (bcs : bcService) (sender : string)
  (sync : pb_BlockSync) : Prog (option error) :=
  b <- recv (bs bcs) ;; call (BlockSync_ProcessSyncRequest b sender sync).

Definition HandleViewChange (bcs : bcService) (msg : proto_Message)
  : Prog (option error) :=
  c <- recv (cs bcs) ;; call (Consensus_HandleViewChange c msg).

Definition HandleBlockPropose (bcs : bcService) (msg : proto_Message)
  : Prog (option error) :=
  c <- recv (cs bcs) ;; call (Consensus_HandleBlockPropose c msg).

(** ** [Server] *)

(** [Server] is the iotex server instance containing all components. *)
Record Server := mk_Server {
  cfg : config_Config;
  chain : nilable blockchain_Blockchain;
  actPool : nilable actpool_ActPool;
  p2p : nilable network_Overlay;
  consensus : nilable consensus_Consensus;
  blocksync : nilable blocksync_BlockSync;
  dispatcher : nilable dispatcher_Dispatcher;
  explorer : nilable explorer_Server
}.

(** [logger.Fatal()...Msg(msg)]: the event is written and the process
    exits. *)
Definition logger_Fatal {R} (fields : list Field) (msg : string) : Prog R :=
  _ <- call (logger_Event Fatal fields (Some msg)) ;; Exit.

Definition newServer (cfg : config_Config)
  (chain : nilable blockchain_Blockchain) : Prog Server :=
  p2p <- call (network_NewOverlay (cfg_Network cfg)) ;;
  r <- call (actpool_NewActPool chain (cfg_ActPool cfg)) ;;
  let '(actPool, err) := r in
  _ <- match err with
       | Some e => logger_Fatal [F_Err e] "Fail to create actpool"
       | None => Ret tt
       end ;;
  r <- call (blocksync_NewBlockSyncer cfg chain actPool p2p) ;;
  let '(bs, err) := r in
  _ <- match err with
       | Some e => logger_Fatal [F_Err e] "Fail to create blockSyncer"
       | None => Ret tt
       end ;;
  consensus <- call (consensus_NewConsensus cfg chain actPool p2p) ;;
  _ <- match consensus with
       | None => logger_Fatal [] "Failed to create Consensus"
       | Some _ => Ret tt
       end ;;
  r <- call (dispatch_NewDispatcher cfg) ;;
  let '(dispatcher, err) := r in
  _ <- match err with
       | Some e => logger_Fatal [F_Err e] "Fail to create dispatcher"
       | None => Ret tt
       end ;;
  c <- recv chain ;;
  id <- call (Blockchain_ChainID c) ;;
  d <- recv dispatcher ;;
  _ <- call (Dispatcher_AddSubscriber d id (mk_bcService actPool bs consensus)) ;;
  p <- recv p2p ;;
  _ <- call (Overlay_AttachDispatcher p dispatcher) ;;
  test <- (if Explorer_IsTest (cfg_Explorer cfg) then Ret true
           else
             env <- call (os_Getenv "APP_ENV") ;;
             Ret (String.eqb env "development")) ;;
  exp <- (if test : bool
          then
            _ <- call (logger_Event Warn []
                         (Some "Using test server with fake data...")) ;;
            call (explorer_NewTestSever (cfg_Explorer cfg))
          else
            call (explorer_NewServer (cfg_Explorer cfg) chain consensus
                    dispatcher actPool p2p)) ;;
  Ret (mk_Server cfg chain actPool p2p consensus bs dispatcher exp).

(** The end of [NewServer], after the [if]: the chain id is logged and the
    server is assembled. *)
Definition NewServer_finish (cfg : config_Config)
  (chain : nilable blockchain_Blockchain) : Prog (option Server) :=
  c <- recv chain ;;
  id <- call (Blockchain_ChainID c) ;;
  _ <- call (logger_Event Error [F_Uint32 "chain id" id]
               (Some "Chain ID for new server")) ;;
  s <- newServer cfg chain ;;
  Ret (Some s).

(** [NewServer] creates a new server. *)
Definition NewServer (cfg : config_Config) : Prog (option Server) :=
  chain <- call (blockchain_NewBlockchain cfg
                   [DefaultStateFactoryOption; BoltDBDaoOption]) ;;
  if match chain with None => true | Some _ => false end
     && Chain_EnableFallBackToFreshDB cfg
  then
    _ <- call (logger_Event Warn []
                 (Some "Chain db and trie db are falling back to fresh ones")) ;;
    err <- call (os_Rename (Chain_ChainDBPath cfg)
                   (Chain_ChainDBPath cfg +:+ ".old")) ;;
    match err with
    | Some e =>
        _ <- call (logger_Event Error [F_Err e]
                     (Some "Failed to rename old chain db")) ;;
        Ret None
    | None =>
        err <- call (os_Rename (Chain_TrieDBPath cfg)
                       (Chain_TrieDBPath cfg +:+ ".old")) ;;
        match err with
        | Some e =>
            _ <- call (logger_Event Error [F_Err e]
                         (Some "Failed to rename old trie db")) ;;
            Ret None
        | None =>
            chain <- call (blockchain_NewBlockchain cfg
                             [DefaultStateFactoryOption; BoltDBDaoOption]) ;;
            NewServer_finish cfg chain
        end
    end
  else NewServer_finish cfg chain.

(** [NewInMemTestServer] creates a test server in memory. *)
Definition NewInMemTestServer (cfg : config_Config) : Prog Server :=
  chain <- call (blockchain_NewBlockchain cfg
                   [InMemStateFactoryOption; InMemDaoOption]) ;;
  newServer cfg chain.

(** One stage of [Start] or [Stop]: the call on a component, and the error
    wrapped with the stage's message when it fails. *)
Definition stage (x : nilable Component)
  (verb : Component -> context_Context -> Eff (option error))
  (ctx : context_Context) (message : string)
  (next : Prog (option error)) : Prog (option error) :=
  c <- recv x ;;
  err <- call (verb c ctx) ;;
  match err with
  | Some e => Ret (Some (errors_Wrap e message))
  | None => next
  end.

(** [Start] starts the server. *)
Definition Start (s : Server) (ctx : context_Context) : Prog (option error) :=
  stage (C_chain <$> chain s) Component_Start ctx
        "error when starting blockchain"
  (stage (C_dispatcher <$> dispatcher s) Component_Start ctx
         "error when starting dispatcher"
  (stage (C_consensus <$> consensus s) Component_Start ctx
         "error when starting consensus"
  (stage (C_blocksync <$> blocksync s) Component_Start ctx
         "error when starting blocksync"
  (stage (C_p2p <$> p2p s) Component_Start ctx
         "error when starting P2P networks"
  (stage (C_explorer <$> explorer s) Component_Start ctx
         "error when starting explorer"
  (Ret None)))))).

(** [Stop] stops the server. *)
Definition Stop (s : Server) (ctx : context_Context) : Prog (option error) :=
  stage (C_explorer <$> explorer s) Component_Stop ctx
        "error when stopping explorer"
  (stage (C_p2p <$> p2p s) Component_Stop ctx
         "error when stopping P2P networks"
  (stage (C_consensus <$> consensus s) Component_Stop ctx
         "error when stopping consensus"
  (stage (C_blocksync <$> blocksync s) Component_Stop ctx
         "error when stopping blocksync"
  (stage (C_dispatcher <$> dispatcher s) Component_Stop ctx
         "error when stopping dispatcher"
  (stage (C_chain <$> chain s) Component_Stop ctx
         "error when stopping blockchain"
  (Ret None)))))).

(** [Blockchain] returns the Blockchain. *)
Definition Blockchain (s : Server) : nilable blockchain_Blockchain := chain s.

(** [ActionPool] returns the Action pool. *)
Definition ActionPool (s : Server) : nilable actpool_ActPool := actPool s.

(** [P2P] returns the P2P network. *)
Definition P2P (s : Server) : nilable network_Overlay := p2p s.

(** [Dispatcher] returns the Dispatcher. *)
Definition Dispatcher (s : Server) : nilable dispatcher_Dispatcher :=
  dispatcher s.

(** [Consensus] returns the consensus instance. *)
Definition Consensus (s : Server) : nilable consensus_Consensus := consensus s.

(** [BlockSync] returns the block syncer. *)
Definition BlockSync (s : Server) : nilable blocksync_BlockSync := blocksync s.

(** [Explorer] returns the explorer instance. *)
Definition Explorer (s : Server) : nilable explorer_Server := explorer s.

(** ** Running a program *)

(** A call together with what it returned. *)
Inductive Event : Type :=
| Ev {X : Type} (e : Eff X) (x : X).

(** The environment: what a call returns, given the calls made so far. *)
Definition Oracle : Type := forall X : Type, list Event -> Eff X -> X.

(** [run o p hist]: the calls made (after those of [hist]) and the
    outcome of [p] in the environment [o]. *)
Fixpoint run {R} (o : Oracle) (p : Prog R) (hist : list Event)
  : list Event * Outcome R :=
  match p with
  | Ret r => (hist, Returned r)
  | Panic => (hist, Panicked)
  | Exit => (hist, Exited)
  | Vis e k => let x := o _ hist e in run o (k x) (hist ++ [Ev e x])
  end.

(** ** Names for the calls of [NewServer] *)

(** The calls of [NewServer] up to the second creation of the chain. *)
Definition first_creation (cfg : config_Config)
  : Eff (nilable blockchain_Blockchain) :=
  blockchain_NewBlockchain cfg [DefaultStateFactoryOption; BoltDBDaoOption].

Definition warn_fall_back : Eff unit :=
  logger_Event Warn []
    (Some "Chain db and trie db are falling back to fresh ones").

Definition rename_chain_db (cfg : config_Config)
  : Eff (option error) :=
  os_Rename (Chain_ChainDBPath cfg) (Chain_ChainDBPath cfg +:+ ".old").

Definition rename_trie_db (cfg : config_Config)
  : Eff (option error) :=
  os_Rename (Chain_TrieDBPath cfg) (Chain_TrieDBPath cfg +:+ ".old").

(** The trace after the chain db was set aside, and after the trie db was
    set aside too. *)
Definition after_warning (cfg : config_Config) : list Event :=
  [Ev (first_creation cfg) None; Ev warn_fall_back tt].

Definition after_chain_db (cfg : config_Config) : list Event :=
  after_warning cfg ++ [Ev (rename_chain_db cfg) None].

Definition after_trie_db (cfg : config_Config) : list Event :=
  after_chain_db cfg ++ [Ev (rename_trie_db cfg) None].

(** The part of [NewServer] inside the fall-back branch, after the
    warning. *)
Definition set_aside_and_retry (cfg : config_Config)
  : Prog (option Server) :=
  err <- call (rename_chain_db cfg) ;;
  match err with
  | Some e =>
      _ <- call (logger_Event Error [F_Err e]
                   (Some "Failed to rename old chain db")) ;;
      Ret None
  | None =>
      err <- call (rename_trie_db cfg) ;;
      match err with
      | Some e =>
          _ <- call (logger_Event Error [F_Err e]
                       (Some "Failed to rename old trie db")) ;;
          Ret None
      | None =>
          chain <- call (first_creation cfg) ;;
          NewServer_finish cfg chain
      end
  end.

(** The calls of a trace that are not log events. *)
Definition is_log (ev : Event) : bool :=
  match ev with
  | Ev e _ => match e with logger_Event _ _ _ => true | _ => false end
  end.

Fixpoint calls (t : list Event) : list Event :=
  match t with
  | [] => []
  | ev :: t' => if is_log ev then calls t' else ev :: calls t'
  end.

(** ** The order of the stages *)

Inductive Subsystem : Type :=
| S_chain | S_dispatcher | S_consensus | S_blocksync | S_p2p | S_explorer.

Definition kind (c : Component) : Subsystem :=
  match c with
  | C_chain _ => S_chain
  | C_dispatcher _ => S_dispatcher
  | C_consensus _ => S_consensus
  | C_blocksync _ => S_blocksync
  | C_p2p _ => S_p2p
  | C_explorer _ => S_explorer
  end.

(** The component of a server that plays a given part ([nil] if the field
    is nil). *)
Definition component (s : Server) (x : Subsystem) : nilable Component :=
  match x with
  | S_chain => C_chain <$> chain s
  | S_dispatcher => C_dispatcher <$> dispatcher s
  | S_consensus => C_consensus <$> consensus s
  | S_blocksync => C_blocksync <$> blocksync s
  | S_p2p => C_p2p <$> p2p s
  | S_explorer => C_explorer <$> explorer s
  end.

(** The subsystems started, and stopped, by the calls of a trace, in the
    order of the calls. *)
Definition started_by (ev : Event) : option Subsystem :=
  match ev with
  | Ev e _ => match e with Component_Start x _ => Some (kind x) | _ => None end
  end.

Definition stopped_by (ev : Event) : option Subsystem :=
  match ev with
  | Ev e _ => match e with Component_Stop x _ => Some (kind x) | _ => None end
  end.

Fixpoint collect (f : Event -> option Subsystem) (t : list Event)
  : list Subsystem :=
  match t with
  | [] => []
  | ev :: t' =>
      match f ev with
      | Some x => x :: collect f t'
      | None => collect f t'
      end
  end.

Definition started (t : list Event) : list Subsystem := collect started_by t.
Definition stopped (t : list Event) : list Subsystem := collect stopped_by t.

Definition start_order : list Subsystem :=
  [S_chain; S_dispatcher; S_consensus; S_blocksync; S_p2p; S_explorer].

Definition stop_order : list Subsystem :=
  [S_explorer; S_p2p; S_consensus; S_blocksync; S_dispatcher; S_chain].

Definition stage_name (x : Subsystem) : string :=
  match x with
  | S_chain => "blockchain"
  | S_dispatcher => "dispatcher"
  | S_consensus => "consensus"
  | S_blocksync => "blocksync"
  | S_p2p => "P2P networks"
  | S_explorer => "explorer"
  end.

Definition start_message (x : Subsystem) : string :=
  "error when starting " +:+ stage_name x.

Definition stop_message (x : Subsystem) : string :=
  "error when stopping " +:+ stage_name x.

(** The specification of a staged start or stop, in its words: the stages
    run in the given order; the failure of a stage aborts the remaining
    sequence and propagates the wrapped error identifying which stage
    failed. *)
Fixpoint run_stages (o : Oracle)
  (verb : Component -> context_Context -> Eff (option error))
  (message : Subsystem -> string) (s : Server) (ctx : context_Context)
  (order : list Subsystem) (hist : list Event)
  : list Event * Outcome (option error) :=
  match order with
  | [] => (hist, Returned None)
  | x :: rest =>
      match component s x with
      | None => (hist, Panicked)
      | Some c =>
          match o _ hist (verb c ctx) with
          | Some e => (hist ++ [Ev (verb c ctx) (Some e)],
                       Returned (Some (errors_Wrap e (message x))))
          | None => run_stages o verb message s ctx rest
                      (hist ++ [Ev (verb c ctx) None])
          end
      end
  end.

(** ** What a function can call *)

(** [only P p]: every call that [p] makes satisfies [P], whatever the calls
    return. *)
Fixpoint only {R} (P : Event -> Prop) (p : Prog R) : Prop :=
  match p with
  | Vis e k => forall x, P (Ev e x) /\ only P (k x)
  | _ => True
  end.

Fixpoint every (P : Event -> Prop) (t : list Event) : Prop :=
  match t with
  | [] => True
  | ev :: t' => P ev /\ every P t'
  end.

(** The files renamed by the calls of a trace (old and new path), and the
    options of the blockchains created, in the order of the calls. *)
Fixpoint renames (t : list Event) : list (string * string) :=
  match t with
  | [] => []
  | Ev e _ :: t' =>
      match e with
      | os_Rename oldpath newpath => (oldpath, newpath) :: renames t'
      | _ => renames t'
      end
  end.

Fixpoint creations (t : list Event) : list (list blockchain_Option) :=
  match t with
  | [] => []
  | Ev e _ :: t' =>
      match e with
      | blockchain_NewBlockchain _ opts => opts :: creations t'
      | _ => creations t'
      end
  end.

(** The environment variables read by the calls of a trace. *)
Fixpoint getenvs (t : list Event) : list string :=
  match t with
  | [] => []
  | Ev e _ :: t' =>
      match e with
      | os_Getenv key => key :: getenvs t'
      | _ => getenvs t'
      end
  end.

(** A call that neither renames a file nor creates a blockchain. *)
Definition quiet (ev : Event) : Prop :=
  match ev with
  | Ev e _ =>
      match e with
      | os_Rename _ _ => False
      | blockchain_NewBlockchain _ _ => False
      | _ => True
      end
  end.

(** A [Start] (a [Stop]) of one of the server's own components, with the
    caller's context. *)
Definition own_start (s : Server) (ctx : context_Context) (ev : Event)
  : Prop :=
  match ev with
  | Ev e _ =>
      match e with
      | Component_Start c ctx' => component s (kind c) = Some c /\ ctx' = ctx
      | _ => False
      end
  end.

Definition own_stop (s : Server) (ctx : context_Context) (ev : Event)
  : Prop :=
  match ev with
  | Ev e _ =>
      match e with
      | Component_Stop c ctx' => component s (kind c) = Some c /\ ctx' = ctx
      | _ => False
      end
  end.

(** ** Names for the calls of [newServer] *)

Definition test_warning : Eff unit :=
  logger_Event Warn [] (Some "Using test server with fake data...").

Definition fatal (fields : list Field) (msg : string) : Event :=
  Ev (logger_Event Fatal fields (Some msg)) tt.

(** The first calls of a [newServer] that gets past the creation of its
    components: the components created, the chain id read, the subscriber
    registered under that id, and the dispatcher attached to the network. *)
Definition construction (cfg : config_Config) (c : blockchain_Blockchain)
  (a : nilable actpool_ActPool) (p : network_Overlay)
  (k : consensus_Consensus) (b : nilable blocksync_BlockSync)
  (d : dispatcher_Dispatcher) (id : Z) : list Event :=
  [Ev (network_NewOverlay (cfg_Network cfg)) (Some p);
   Ev (actpool_NewActPool (Some c) (cfg_ActPool cfg)) (a, None);
   Ev (blocksync_NewBlockSyncer cfg (Some c) a (Some p)) (b, None);
   Ev (consensus_NewConsensus cfg (Some c) a (Some p)) (Some k);
   Ev (dispatch_NewDispatcher cfg) (Some d, None);
   Ev (Blockchain_ChainID c) id;
   Ev (Dispatcher_AddSubscriber d id (mk_bcService a b (Some k))) tt;
   Ev (Overlay_AttachDispatcher p (Some d)) tt].

(** The creation of the blockchain of [NewInMemTestServer]. *)
Definition in_mem_creation (cfg : config_Config)
  : Eff (nilable blockchain_Blockchain) :=
  blockchain_NewBlockchain cfg [InMemStateFactoryOption; InMemDaoOption].

End Package.

(** ** Sample values *)

(** Modelled from the spec: the messages and actions of the sample
    instance.  "Action — polymorphic over {Transfer, Vote, Execution}; each
    carries a sender address, a nonce, and kind-specific payload
    (amount+recipient; votee; contract call data)."  An action converted
    from a message keeps the message. *)
Inductive sample_payload : Type :=
| P_transfer (amount : Z) (recipient : string)
| P_vote (votee : string)
| P_execution (data : string).

Record sample_ActionPb := mk_sample_ActionPb {
  sender : string;
  nonce : Z;
  payload : option sample_payload
}.

Record sample_Config := mk_sample_Config {
  fallback : bool;
  chain_db : string;
  trie_db : string;
  is_test : bool
}.

(** An instance of the imports in which components are numbers. *)
Definition sample : Imports := {|
  context_Context := unit;
  proto_Message := string;
  config_Config := sample_Config;
  config_Network := unit;
  config_ActPool := unit;
  config_Explorer := bool;
  Chain_EnableFallBackToFreshDB := fallback;
  Chain_ChainDBPath := chain_db;
  Chain_TrieDBPath := trie_db;
  cfg_Network := fun _ => tt;
  cfg_ActPool := fun _ => tt;
  cfg_Explorer := is_test;
  Explorer_IsTest := fun b => b;
  pb_ActionPb := sample_ActionPb;
  pb_TransferPb := Z * string;
  pb_VotePb := string;
  pb_ExecutionPb := string;
  pb_BlockSync := Z * Z;
  GetTransfer := fun a => match payload a with
                          | Some (P_transfer amount r) => Some (amount, r)
                          | _ => None
                          end;
  GetVote := fun a => match payload a with
                      | Some (P_vote v) => Some v
                      | _ => None
                      end;
  GetExecution := fun a => match payload a with
                           | Some (P_execution d) => Some d
                           | _ => None
                           end;
  action_Transfer := option sample_ActionPb;
  action_Vote := option sample_ActionPb;
  action_Execution := option sample_ActionPb;
  Transfer_zero := None;
  Vote_zero := None;
  Execution_zero := None;
  Transfer_ConvertFromActionPb := fun _ act => Some act;
  Vote_ConvertFromActionPb := fun _ act => Some act;
  Execution_ConvertFromActionPb := fun _ act => Some act;
  blockchain_Block := Z;
  blockchain_Blockchain := positive;
  actpool_ActPool := positive;
  network_Overlay := positive;
  consensus_Consensus := positive;
  blocksync_BlockSync := positive;
  dispatcher_Dispatcher := positive;
  explorer_Server := positive
|}.

(** An environment of the sample instance.  [new_chain] answers
    [NewBlockchain] from the calls made so far, [rename] answers
    [os.Rename] from the old path, [start] and [stop] answer the stages,
    [add] answers the action pool; every other call succeeds. *)
Definition env (new_chain : list (@Event sample) -> option positive)
  (rename : string -> option error)
  (start stop : Subsystem -> option error) (add : option error)
  : @Oracle sample :=
  fun X hist e =>
    match e in @Eff _ X return X with
    | blockchain_NewBlockchain _ _ => new_chain hist
    | Blockchain_ChainID c => Zpos c
    | os_Rename oldpath _ => rename oldpath
    | os_Getenv _ => ""
    | logger_Event _ _ _ => tt
    | network_NewOverlay _ => Some 5%positive
    | actpool_NewActPool _ _ => (Some 2%positive, None)
    | blocksync_NewBlockSyncer _ _ _ _ => (Some 4%positive, None)
    | consensus_NewConsensus _ _ _ _ => Some 3%positive
    | dispatch_NewDispatcher _ => (Some 6%positive, None)
    | Dispatcher_AddSubscriber _ _ _ => tt
    | Overlay_AttachDispatcher _ _ => tt
    | explorer_NewTestSever _ => Some 7%positive
    | explorer_NewServer _ _ _ _ _ _ => Some 7%positive
    | Component_Start x _ => start (kind x)
    | Component_Stop x _ => stop (kind x)
    | ActPool_AddTsf _ _ => add
    | ActPool_AddVote _ _ => add
    | ActPool_AddExecution _ _ => add
    | BlockSync_ProcessBlock _ _ => None
    | BlockSync_ProcessBlockSync _ _ => None
    | BlockSync_ProcessSyncRequest _ _ _ => None
    | Consensus_HandleViewChange _ _ => None
    | Consensus_HandleBlockPropose _ _ => None
    end.

(** The environment in which every call succeeds. *)
Definition env_ok : @Oracle sample :=
  env (fun _ => Some 1%positive) (fun _ => None) (fun _ => None)
      (fun _ => None) None.

(** The chain cannot be created at first, and can once the old files are
    out of the way. *)
Definition env_fresh : @Oracle sample :=
  env (fun hist => match hist with [] => None | _ => Some 1%positive end)
      (fun _ => None) (fun _ => None) (fun _ => None) None.

(** The chain cannot be created and the files cannot be renamed. *)
Definition env_locked : @Oracle sample :=
  env (fun _ => None) (fun _ => Some (errors_New "permission denied"))
      (fun _ => None) (fun _ => None) None.

(** The chain cannot be created, before or after the files are renamed. *)
Definition env_no_chain : @Oracle sample :=
  env (fun _ => None) (fun _ => None) (fun _ => None) (fun _ => None) None.

(** A configuration with the fall-back flag set. *)
Definition cfg0 : sample_Config := mk_sample_Config true "chain.db" "trie.db" false.

(** The same configuration without the flag. *)
Definition cfg1 : sample_Config :=
  mk_sample_Config false "chain.db" "trie.db" false.

(** A server with all its components. *)
Definition server0 : @Server sample :=
  @mk_Server sample cfg0 (Some 1%positive) (Some 2%positive) (Some 5%positive)
            (Some 3%positive) (Some 4%positive) (Some 6%positive)
            (Some 7%positive).

(** A subscriber with all its components. *)
Definition bcs0 : @bcService sample :=
  @mk_bcService sample (Some 2%positive) (Some 4%positive) (Some 3%positive).

(** A subscriber without any component. *)
Definition bcs_nil : @bcService sample := @mk_bcService sample None None None.

(** The environment [env_ok], but for the action pool, which cannot be
    created. *)
Definition env_no_actpool : @Oracle sample :=
  fun X hist e =>
    match e in @Eff _ X return X -> X with
    | actpool_NewActPool _ _ =>
        fun _ => (None, Some (errors_New "no action pool"))
    | _ => fun x => x
    end (env_ok X hist e).

(** The environment [env_ok] with [APP_ENV] set to [development]. *)
Definition env_development : @Oracle sample :=
  fun X hist e =>
    match e in @Eff _ X return X -> X with
    | os_Getenv _ => fun _ => "development"
    | _ => fun x => x
    end (env_ok X hist e).


(** Action messages: a transfer, and one that carries no action. *)
Definition act_transfer : sample_ActionPb :=
  mk_sample_ActionPb "io1alice" 1 (Some (P_transfer 50 "io1bob")).

Definition act_none : sample_ActionPb := mk_sample_ActionPb "io1alice" 1 None.


End itx.

(* ===================================================================== *)
(** * Package [explorer]: the test explorer *)
(* ===================================================================== *)

Module testexplorer.

(** ** Random numbers *)

(** [randInt64] seeds the global generator of [math/rand] with the clock and
    draws from it with [rand.Intn].  What the clock reads is not known to the
    program, so the generator is modelled by its environment: [draws i] is
    the number behind the [i]-th call of [rand.Intn] of a run, and
    [rand.Intn(n)] returns it reduced to [0 <= . < n].  A function that draws
    is a function of the number of draws made so far; it returns a value and
    the new number of draws, or [None] when the fuel given to a loop is used
    up before the loop ends. *)
Section Random.
Variable draws : nat -> Z.

Definition Gen (A : Type) : Type := nat -> option (A * nat).

Definition ret {A} (a : A) : Gen A := fun pos => Some (a, pos).

Definition bind {A B} (g : Gen A) (k : A -> Gen B) : Gen B :=
  fun pos => match g pos with
             | Some (a, pos') => k a pos'
             | None => None
             end.

Definition rand_Intn (n : Z) : Gen Z :=
  fun pos => Some ((draws pos mod n)%Z, S pos).

End Random.

Notation "x <- m ;; k" := (bind m (fun x => k))
  (at level 100, m at next level, right associativity).

(** [strconv.FormatInt(i, 10)]. *)
Definition strconv_FormatInt (i : Z) : string :=
  NilZero.string_of_int (Z.to_int i).

(** ** The records of [explorer/idl/explorer]

    Declared in another package; each record has the fields that
    [testexplorer.go] sets, named after the type and the field. *)

(** A Go [error] that is not nil. *)
Definition error : Type := string.

Record AddressDetails := mkAddressDetails {
  AddressDetails_Address : string;
  AddressDetails_TotalBalance : Z
}.

Record Transfer := mkTransfer {
  Transfer_ID : string;
  Transfer_Sender : string;
  Transfer_Recipient : string;
  Transfer_Amount : Z;
  Transfer_Fee : Z;
  Transfer_Timestamp : Z;
  Transfer_BlockID : string
}.




Record CoinStatistic := mkCoinStatistic {
  CoinStatistic_Height : Z;
  CoinStatistic_Supply : Z
}.

Record ConsensusMetrics := mkConsensusMetrics {
  ConsensusMetrics_LatestEpoch : Z;
  ConsensusMetrics_LatestDelegates : list string;
  ConsensusMetrics_LatestBlockProducer : string
}.

(** ** The functions of [testexplorer.go]

    The receiver [exp *TestExplorer] of the methods is an empty struct that
    no method reads: it is left out.  Every function takes the fuel of the
    loop of [randInt64] and the random source first. *)
Section Explorer.
Variable draws : nat -> Z.
Variable fuel : nat.

(** The loop [for amount == int64(0) { amount = int64(rand.Intn(100000000)) }]
    entered with a given [amount]. *)
Fixpoint randInt64_loop (n : nat) (amount : Z) : Gen Z :=
  if (amount =? 0)%Z then
    match n with
    | 0 => fun _ => None
    | S n' => a <- rand_Intn draws 100000000 ;; randInt64_loop n' a
    end
  else ret amount.

Definition randInt64 : Gen Z := randInt64_loop fuel 0.

Definition randString : Gen string :=
  i <- randInt64 ;; ret (strconv_FormatInt i).

Definition randTransaction : Gen Transfer :=
  id <- randString ;;
  sender <- randString ;;
  recipient <- randString ;;
  amount <- randInt64 ;;
  timestamp <- randInt64 ;;
  blockID <- randString ;;
  ret (mkTransfer id sender recipient amount 12 timestamp blockID).



(** The loop [for i := int64(0); i < limit; i++ { xs = append(xs, g()) }]
    with [n] iterations left. *)
Fixpoint append_each {A} (n : nat) (g : Gen A) (xs : list A) : Gen (list A) :=
  match n with
  | 0 => ret xs
  | S n' => x <- g ;; append_each n' g (xs ++ [x])
  end.

(** [GetBlockchainHeight] returns the blockchain height. *)
Definition GetBlockchainHeight : Gen (Z * option error) :=
  h <- randInt64 ;; ret (h, None).

(** [GetAddressBalance] returns the balance of an address. *)
Definition GetAddressBalance (address : string) : Gen (Z * option error) :=
  b <- randInt64 ;; ret (b, None).

(** [GetAddressDetails] returns the properties of an address. *)
Definition GetAddressDetails (address : string)
  : Gen (AddressDetails * option error) :=
  b <- randInt64 ;; ret (mkAddressDetails address b, None).

(** [GetLastTransfersByRange]: the loop runs while [i < limit], that is
    [limit] times, and not at all when [limit <= 0]. *)
Definition GetLastTransfersByRange (startBlockHeight offset limit : Z)
  (showCoinBase : bool) : Gen (list Transfer * option error) :=
  txs <- append_each (Z.to_nat limit) randTransaction [] ;;
  ret (txs, None).

(** [GetTransferByID] returns transfer by transfer id. *)
Definition GetTransferByID (transferID : string)
  : Gen (Transfer * option error) :=
  tx <- randTransaction ;; ret (tx, None).

(** [GetTransfersByAddress] returns all transfers associate with an
    address. *)
Definition GetTransfersByAddress (address : string) (offset limit : Z)
  : Gen (list Transfer * option error) :=
  GetLastTransfersByRange 0 offset limit true.

(** [GetTransfersByBlockID] returns transfers in a block. *)
Definition GetTransfersByBlockID (blockID : string) (offset limit : Z)
  : Gen (list Transfer * option error) :=
  GetLastTransfersByRange 0 offset limit true.







(** [GetCoinStatistic] returns stats in blockchain. *)
Definition GetCoinStatistic : Gen (CoinStatistic * option error) :=
  height <- randInt64 ;;
  supply <- randInt64 ;;
  ret (mkCoinStatistic height supply, None).

(** [GetConsensusMetrics] returns the fake consensus metrics. *)
Definition GetConsensusMetrics : Gen (ConsensusMetrics * option error) :=
  d0 <- randString ;;
  d1 <- randString ;;
  d2 <- randString ;;
  d3 <- randString ;;
  let delegates := [d0; d1; d2; d3] in
  latestEpoch <- randInt64 ;;
  ret (mkConsensusMetrics latestEpoch delegates
         (default "" (delegates !! 0)), None).

End Explorer.

(** ** What a function that draws returns *)

(** [yields g Q]: from every number of draws made so far, [g] returns (the
    fuel is enough), it draws forward only, and what it returns satisfies
    [Q]. *)
Definition yields {A} (g : Gen A) (Q : A -> Prop) : Prop :=
  forall pos, exists a pos', g pos = Some (a, pos') /\ pos <= pos' /\ Q a.

(** The source never gives [fuel] numbers in a row that [rand.Intn] reduces
    to 0. *)
Definition lively (draws : nat -> Z) (fuel : nat) : Prop :=
  forall pos, exists j, j < fuel /\ (draws (pos + j)%nat mod 100000000 <> 0)%Z.

(** A number that [randInt64] can return. *)
Definition in_range (v : Z) : Prop := (0 < v < 100000000)%Z.

(** ** Sample values *)

(** A source whose every other number is reduced to 0. *)
Definition draws0 (i : nat) : Z :=
  if Nat.even i then 300000000%Z else (Z.of_nat i mod 7 + 1)%Z.

End testexplorer.

Section state_properties.
Import state.

Lemma bind_Ok {A B} (m : M A) (k : A -> M B) h a h' :
  m h = Ok (a, h') -> bind m k h = k a h'.
Proof. intros E. unfold bind. now rewrite E. Qed.

Lemma Int_val_Some h l v :
  ints h !! l = Some v -> Int_val (Some l) h = Ok (v, h).
Proof. intros E. unfold Int_val. now rewrite E. Qed.

Lemma Int_store_Some h l v0 v :
  ints h !! l = Some v0 ->
  Int_store (Some l) v h = Ok (tt, set_ints h (<[l := v]> (ints h))).
Proof. intros E. unfold Int_store. now rewrite E. Qed.

Lemma Int_Add_Some h z x y vz vx vy :
  ints h !! z = Some vz -> ints h !! x = Some vx -> ints h !! y = Some vy ->
  Int_Add (Some z) (Some x) (Some y) h
  = Ok (Some z, set_ints h (<[z := (vx + vy)%Z]> (ints h))).
Proof.
  intros Ez Ex Ey. unfold Int_Add.
  rewrite (bind_Ok _ _ _ _ _ (Int_val_Some _ _ _ Ex)).
  rewrite (bind_Ok _ _ _ _ _ (Int_val_Some _ _ _ Ey)).
  now rewrite (bind_Ok _ _ _ _ _ (Int_store_Some _ _ _ _ Ez)).
Qed.

Lemma Int_Sub_Some h z x y vz vx vy :
  ints h !! z = Some vz -> ints h !! x = Some vx -> ints h !! y = Some vy ->
  Int_Sub (Some z) (Some x) (Some y) h
  = Ok (Some z, set_ints h (<[z := (vx - vy)%Z]> (ints h))).
Proof.
  intros Ez Ex Ey. unfold Int_Sub.
  rewrite (bind_Ok _ _ _ _ _ (Int_val_Some _ _ _ Ex)).
  rewrite (bind_Ok _ _ _ _ _ (Int_val_Some _ _ _ Ey)).
  now rewrite (bind_Ok _ _ _ _ _ (Int_store_Some _ _ _ _ Ez)).
Qed.

Lemma Int_Cmp_Some h x y vx vy :
  ints h !! x = Some vx -> ints h !! y = Some vy ->
  Int_Cmp (Some x) (Some y) h
  = Ok (match (vx ?= vy)%Z with Lt => (-1)%Z | Eq => 0%Z | Gt => 1%Z end, h).
Proof.
  intros Ex Ey. unfold Int_Cmp.
  rewrite (bind_Ok _ _ _ _ _ (Int_val_Some _ _ _ Ex)).
  now rewrite (bind_Ok _ _ _ _ _ (Int_val_Some _ _ _ Ey)).
Qed.

(** What [AddBalance] computes when the balance and the amount exist. *)
Lemma AddBalance_Some h st lb la b a :
  Balance st = Some lb -> ints h !! lb = Some b -> ints h !! la = Some a ->
  AddBalance st (Some la) h
  = Ok (None, set_ints h (<[lb := (b + a)%Z]> (ints h))).
Proof.
  intros Eb Hb Ha. unfold AddBalance. rewrite Eb.
  now rewrite (bind_Ok _ _ _ _ _ (Int_Add_Some _ _ _ _ _ _ _ Hb Hb Ha)).
Qed.

(** What [SubBalance] computes when the balance and the amount exist. *)
Lemma SubBalance_Some h st lb la b a :
  Balance st = Some lb -> ints h !! lb = Some b -> ints h !! la = Some a ->
  SubBalance st (Some la) h
  = if (b <? a)%Z then Ok (Some ErrNotEnoughBalance, h)
    else Ok (None, set_ints h (<[lb := (b - a)%Z]> (ints h))).
Proof.
  intros Eb Hb Ha. unfold SubBalance. rewrite Eb.
  rewrite (bind_Ok _ _ _ _ _ (Int_Cmp_Some _ _ _ _ _ Ha Hb)).
  destruct (Z.ltb_spec b a) as [Hlt | Hge].
  - apply Z.lt_gt in Hlt. unfold Z.gt in Hlt. now rewrite Hlt.
  - destruct (a ?= b)%Z eqn:E; simpl.
    + now rewrite (bind_Ok _ _ _ _ _ (Int_Sub_Some _ _ _ _ _ _ _ Hb Hb Ha)).
    + now rewrite (bind_Ok _ _ _ _ _ (Int_Sub_Some _ _ _ _ _ _ _ Hb Hb Ha)).
    + apply Z.compare_gt_iff in E. lia.
Qed.

(** C1.  For a state whose balance is [b] and an amount [a] with [0 <= a]:
    [SubBalance] fails with [ErrNotEnoughBalance] exactly when [a > b], and
    then the store is left as it was (nothing is debited); otherwise it
    returns no error and the balance becomes [b - a], every other object of
    the store being untouched. *)
Theorem SubBalance_rejects_or_debits h st lb la b a :
  Balance st = Some lb -> ints h !! lb = Some b -> ints h !! la = Some a ->
  (0 <= a)%Z ->
  ((a > b)%Z -> SubBalance st (Some la) h = Ok (Some ErrNotEnoughBalance, h))
  /\ (~ (a > b)%Z ->
      exists h', SubBalance st (Some la) h = Ok (None, h')
                 /\ ints h' !! lb = Some (b - a)%Z
                 /\ (forall l, l <> lb -> ints h' !! l = ints h !! l)
                 /\ arrays h' = arrays h /\ maps h' = maps h).
Proof.
  intros Eb Hb Ha _.
  rewrite (SubBalance_Some _ _ _ _ _ _ Eb Hb Ha).
  split; intros Hab.
  - destruct (Z.ltb_spec b a); [reflexivity | lia].
  - destruct (Z.ltb_spec b a); [lia |].
    eexists; split; [reflexivity |]. simpl. repeat split.
    + apply lookup_insert_eq.
    + intros l Hl. now apply lookup_insert_ne.
Qed.

Lemma SubBalance_rejects_or_debits_witness :
  ((130 > 100)%Z ->
   SubBalance st0 (Some 3%positive) heap0 = Ok (Some ErrNotEnoughBalance, heap0))
  /\ (~ (30 > 100)%Z ->
      exists h', SubBalance st0 (Some 2%positive) heap0 = Ok (None, h')
                 /\ ints h' !! 1%positive = Some 70%Z).
Proof.
  split.
  - apply (SubBalance_rejects_or_debits heap0 st0 1 3 100 130);
      [reflexivity | reflexivity | reflexivity | lia].
  - intros Hn.
    destruct (SubBalance_rejects_or_debits heap0 st0 1 2 100 30) as [_ Hd];
      [reflexivity | reflexivity | reflexivity | lia |].
    destruct (Hd Hn) as (h' & E & Hl & _). exists h'. split; [exact E | exact Hl].
Defined.

(** C2.  Non-negativity of the balance is kept by both mutators.  From a
    balance [b >= 0] and with an amount [a >= 0], [AddBalance] returns no
    error and the new balance is non-negative; [SubBalance] also leaves a
    non-negative balance, and when the debit would make the balance negative
    ([b < a]) it is refused with [ErrNotEnoughBalance] and the balance stays
    [b]: it is not clamped to 0. *)
Theorem balance_stays_nonnegative h st lb la b a :
  Balance st = Some lb -> ints h !! lb = Some b -> ints h !! la = Some a ->
  (0 <= b)%Z -> (0 <= a)%Z ->
  (exists h' b', AddBalance st (Some la) h = Ok (None, h')
                 /\ ints h' !! lb = Some b' /\ (0 <= b')%Z)
  /\ (exists r h' b', SubBalance st (Some la) h = Ok (r, h')
                      /\ ints h' !! lb = Some b' /\ (0 <= b')%Z
                      /\ ((b - a < 0)%Z ->
                          r = Some ErrNotEnoughBalance /\ b' = b)).
Proof.
  intros Eb Hb Ha Hb0 Ha0. split.
  - rewrite (AddBalance_Some _ _ _ _ _ _ Eb Hb Ha).
    eexists _, _. split; [reflexivity |]. simpl.
    split; [apply lookup_insert_eq | lia].
  - rewrite (SubBalance_Some _ _ _ _ _ _ Eb Hb Ha).
    destruct (Z.ltb_spec b a).
    + exists (Some ErrNotEnoughBalance), h, b. repeat split; auto.
    + eexists None, _, _. split; [reflexivity |]. simpl.
      split; [apply lookup_insert_eq |]. split; [lia | intros; lia].
Qed.

Lemma balance_stays_nonnegative_witness :
  (exists h' b', AddBalance st0 (Some 2%positive) heap0 = Ok (None, h')
                 /\ ints h' !! 1%positive = Some b' /\ (0 <= b')%Z)
  /\ (exists r h' b', SubBalance st0 (Some 3%positive) heap0 = Ok (r, h')
                      /\ ints h' !! 1%positive = Some b' /\ (0 <= b')%Z
                      /\ ((100 - 130 < 0)%Z ->
                          r = Some ErrNotEnoughBalance /\ b' = 100%Z)).
Proof.
  split.
  - destruct (balance_stays_nonnegative heap0 st0 1 2 100 30) as [Ha _];
      [reflexivity | reflexivity | reflexivity | lia | lia |]. exact Ha.
  - destruct (balance_stays_nonnegative heap0 st0 1 3 100 130) as [_ Hs];
      [reflexivity | reflexivity | reflexivity | lia | lia |]. exact Hs.
Defined.

(** C5.  From a balance [b >= 0] and with [0 <= a <= b], [SubBalance] of an
    amount of value [a] followed by [AddBalance] of an amount of value [a]
    brings the balance back to exactly [b].  The amounts are [*big.Int]
    arguments; each holds [a] when its call is made.  The amount object of
    the first call can serve again for the second, unless it is the balance
    object itself (which the debit has just changed). *)
Theorem SubBalance_then_AddBalance_restores h st lb la b a :
  Balance st = Some lb -> ints h !! lb = Some b -> ints h !! la = Some a ->
  (0 <= b)%Z -> (0 <= a <= b)%Z ->
  exists h1, SubBalance st (Some la) h = Ok (None, h1)
             /\ (la <> lb -> ints h1 !! la = Some a)
             /\ (forall la', ints h1 !! la' = Some a ->
                 exists h2, AddBalance st (Some la') h1 = Ok (None, h2)
                            /\ ints h2 !! lb = Some b).
Proof.
  intros Eb Hb Ha Hb0 Hab.
  rewrite (SubBalance_Some _ _ _ _ _ _ Eb Hb Ha).
  destruct (Z.ltb_spec b a); [lia |].
  eexists; split; [reflexivity |]. split.
  - intros Hne. simpl. rewrite lookup_insert_ne; auto.
  - intros la' Ha'.
    assert (Hb1 : ints (set_ints h (<[lb:=(b - a)%Z]> (ints h))) !! lb
                  = Some (b - a)%Z) by apply lookup_insert_eq.
    rewrite (AddBalance_Some _ _ _ _ _ _ Eb Hb1 Ha').
    eexists; split; [reflexivity |]. simpl.
    rewrite lookup_insert_eq. f_equal. lia.
Qed.

Lemma SubBalance_then_AddBalance_restores_witness :
  exists h1, SubBalance st0 (Some 2%positive) heap0 = Ok (None, h1)
             /\ exists h2, AddBalance st0 (Some 2%positive) h1 = Ok (None, h2)
                           /\ ints h2 !! 1%positive = Some 100%Z.
Proof.
  destruct (SubBalance_then_AddBalance_restores heap0 st0 1 2 100 30)
    as (h1 & E1 & Hkeep & Hadd);
    [reflexivity | reflexivity | reflexivity | lia | lia |].
  exists h1. split; [exact E1 |].
  apply Hadd. apply Hkeep. discriminate.
Defined.


Lemma new_Int_then_Set {B} h x v (k : ptr -> M B) :
  ints h !! x = Some v ->
  let l := fresh (dom (ints h)) in
  bind new_Int (fun b => bind (Int_Set b (Some x)) k) h
  = k (Some l) (set_ints h (<[l := v]> (ints h))).
Proof.
  intros Hx l.
  assert (Hfresh : l ∉ dom (ints h)) by apply is_fresh.
  assert (Hne : l <> x).
  { intros ->. apply Hfresh. apply elem_of_dom. eauto. }
  unfold bind at 1. unfold new_Int. fold l.
  unfold bind at 1. unfold Int_Set, bind, Int_val, Int_store, ret. simpl.
  rewrite lookup_insert_ne by done. rewrite Hx. simpl.
  rewrite lookup_insert_eq. simpl. rewrite insert_insert_eq. reflexivity.
Qed.

Lemma make_then_copy {B} h sl (k : slice -> M B) :
  slice_ok h (Some sl) ->
  let l := fresh (dom (arrays h)) in
  bind (make_bytes (len sl))
       (fun c => bind (copy c (Some sl)) (fun _ => k c)) h
  = k (Some (mkSlice l 0 (len sl)))
      (set_arrays h (<[l := slice_bytes h (Some sl)]> (arrays h))).
Proof.
  intros (a & Ha & Hlen) l.
  assert (Hfresh : l ∉ dom (arrays h)) by apply is_fresh.
  assert (Hne : l <> base sl).
  { intros E. apply Hfresh. rewrite E. apply elem_of_dom. eauto. }
  unfold bind, make_bytes, copy, slice_bytes. fold l. simpl.
  rewrite lookup_insert_eq. rewrite lookup_insert_ne by done. rewrite Ha.
  rewrite Nat.min_id. rewrite insert_insert_eq.
  rewrite take_take, Nat.min_id.
  rewrite drop_replicate, Nat.sub_diag. simpl. rewrite app_nil_r.
  reflexivity.
Qed.

(** The state and the store that [clone] returns. *)
Lemma clone_Some h st lb lw b w :
  Balance st = Some lb -> ints h !! lb = Some b ->
  VotingWeight st = Some lw -> ints h !! lw = Some w ->
  slice_ok h (CodeHash st) ->
  let lb' := fresh (dom (ints h)) in
  let i1 := <[lb' := b]> (ints h) in
  let lw' := fresh (dom i1) in
  let lc := fresh (dom (arrays h)) in
  clone st h
  = Ok (mkState (Nonce st) (Some lb') (Root st)
                (match CodeHash st with
                 | Some sl => Some (mkSlice lc 0 (len sl))
                 | None => None
                 end)
                (IsCandidate st) (Some lw') (Votee st) None,
        mkHeap (<[lw' := w]> i1)
               (match CodeHash st with
                | Some sl => <[lc := slice_bytes h (Some sl)]> (arrays h)
                | None => arrays h
                end)
               (maps h)).
Proof.
  intros Eb Hb Ew Hw Hc lb' i1 lw' lc.
  assert (Hfresh : lb' ∉ dom (ints h)) by apply is_fresh.
  assert (Hne : lb' <> lw).
  { intros E. apply Hfresh. rewrite E. apply elem_of_dom. eauto. }
  unfold clone. rewrite Eb, Ew.
  rewrite (new_Int_then_Set h lb b _ Hb). fold lb'.
  assert (Hw1 : ints (set_ints h (<[lb' := b]> (ints h))) !! lw = Some w).
  { simpl. rewrite lookup_insert_ne by done. exact Hw. }
  rewrite (new_Int_then_Set _ lw w _ Hw1). simpl. fold i1 lw'.
  destruct (CodeHash st) as [sl |] eqn:Ec.
  - unfold bind at 1.
    assert (Hc1 : slice_ok (set_ints (set_ints h i1) (<[lw' := w]> i1))
                           (Some sl)) by exact Hc.
    simpl slice_len.
    rewrite (make_then_copy _ sl _ Hc1).
    reflexivity.
  - unfold bind, ret, set_Voters, set_VotingWeight, set_Balance, set_ints. simpl. rewrite Ec. reflexivity.
Qed.

(** C6, as amended.  For a state whose [Balance] and [VotingWeight] are not
    nil (and whose [CodeHash], when present, is a well-formed slice), [clone]
    returns a state equal to the original on [Nonce], [Root], [IsCandidate]
    and [Votee], with a balance and a voting weight of the same values, with
    the same [CodeHash] bytes (nil when the original is nil), and with nil
    (empty) [Voters].  The copy is independent of the original: its
    [Balance] and [VotingWeight] are two new, distinct [big.Int] objects, its
    [CodeHash] lives in a new array, no object of the original store is
    changed, and crediting or debiting the clone leaves the original's
    balance as it was. *)
Theorem clone_copies_all_but_Voters h st lb lw b w :
  Balance st = Some lb -> ints h !! lb = Some b ->
  VotingWeight st = Some lw -> ints h !! lw = Some w ->
  slice_ok h (CodeHash st) ->
  exists s' h' lb' lw',
    clone st h = Ok (s', h')
    /\ (Nonce s' = Nonce st /\ Root s' = Root st
        /\ IsCandidate s' = IsCandidate st /\ Votee s' = Votee st)
    /\ (Balance s' = Some lb' /\ ints h' !! lb' = Some b)
    /\ (VotingWeight s' = Some lw' /\ ints h' !! lw' = Some w)
    /\ (slice_bytes h' (CodeHash s') = slice_bytes h (CodeHash st)
        /\ (CodeHash s' = None <-> CodeHash st = None))
    /\ (Voters s' = None /\ map_len h' (Voters s') = 0)
    /\ ((lb' ∉ dom (ints h)) /\ (lw' ∉ dom (ints h)) /\ lb' <> lw')
    /\ (forall sl', CodeHash s' = Some sl' -> base sl' ∉ dom (arrays h))
    /\ ((forall l, l ∈ dom (ints h) -> ints h' !! l = ints h !! l)
        /\ (forall l, l ∈ dom (arrays h) -> arrays h' !! l = arrays h !! l)
        /\ maps h' = maps h)
    /\ (forall la a, ints h' !! la = Some a ->
        exists h'', AddBalance s' (Some la) h' = Ok (None, h'')
                    /\ ints h'' !! lb' = Some (b + a)%Z
                    /\ ints h'' !! lb = Some b)
    /\ (forall la a, ints h' !! la = Some a ->
        exists r h'', SubBalance s' (Some la) h' = Ok (r, h'')
                      /\ ints h'' !! lb = Some b).
Proof.
  intros Eb Hb Ew Hw Hc.
  pose proof (clone_Some h st lb lw b w Eb Hb Ew Hw Hc) as E. cbv zeta in E.
  set (lb' := fresh (dom (ints h))) in *.
  set (i1 := <[lb' := b]> (ints h)) in *.
  set (lw' := fresh (dom i1)) in *.
  set (lc := fresh (dom (arrays h))) in *.
  assert (Fb : lb' ∉ dom (ints h)) by apply is_fresh.
  assert (Fw1 : lw' ∉ dom i1) by apply is_fresh.
  assert (Fc : lc ∉ dom (arrays h)) by apply is_fresh.
  assert (Fw : (lw' ∉ dom (ints h)) /\ lb' <> lw').
  { unfold i1 in Fw1. rewrite dom_insert_L in Fw1. set_solver. }
  destruct Fw as [Fw Hbw].
  assert (Hlb : lb <> lb').
  { intros ->. apply Fb. apply elem_of_dom. eauto. }
  assert (Hb' : (<[lw' := w]> i1) !! lb' = Some b).
  { rewrite lookup_insert_ne by done. apply lookup_insert_eq. }
  assert (Hkeep : forall l, l ∈ dom (ints h) ->
                            (<[lw' := w]> i1) !! l = ints h !! l).
  { intros l Hl. unfold i1.
    rewrite !lookup_insert_ne; [done | set_solver | set_solver]. }
  eexists _, _, lb', lw'. split; [exact E |]. simpl.
  split; [done |]. split; [done |].
  split; [split; [done | apply lookup_insert_eq] |].
  split.
  { destruct (CodeHash st) as [sl |]; simpl.
    - rewrite lookup_insert_eq.
      destruct Hc as (a & Ha & Hlen). simpl in *. rewrite Ha.
      split; [| split; discriminate].
      rewrite drop_0. apply take_ge. rewrite length_take, length_drop. lia.
    - done. }
  split; [done |].
  split; [done |].
  split.
  { intros sl' Esl. destruct (CodeHash st); [| discriminate].
    injection Esl as <-. exact Fc. }
  split.
  { split; [exact Hkeep |]. split; [| reflexivity].
    intros l Hl. destruct (CodeHash st); [| reflexivity].
    apply lookup_insert_ne. intros ->. contradiction. }
  split.
  - intros la a Ha.
    erewrite AddBalance_Some; [| reflexivity | exact Hb' | exact Ha].
    eexists; split; [reflexivity |]. simpl.
    rewrite lookup_insert_eq. split; [done |].
    rewrite lookup_insert_ne by done. rewrite Hkeep; [done |].
    apply elem_of_dom. eauto.
  - intros la a Ha.
    erewrite SubBalance_Some; [| reflexivity | exact Hb' | exact Ha].
    destruct (b <? a)%Z.
    + eexists _, _; split; [reflexivity |]. simpl.
      rewrite Hkeep; [done |]. apply elem_of_dom. eauto.
    + eexists _, _; split; [reflexivity |]. simpl.
      rewrite lookup_insert_ne by done. rewrite Hkeep; [done |].
      apply elem_of_dom. eauto.
Qed.

Lemma clone_copies_all_but_Voters_witness :
  exists s' h' lb' lw',
    clone st0 heap0 = Ok (s', h')
    /\ Balance s' = Some lb' /\ ints h' !! lb' = Some 100%Z
    /\ VotingWeight s' = Some lw' /\ ints h' !! lw' = Some 30%Z
    /\ slice_bytes h' (CodeHash s') = [x0b; x0c]
    /\ Voters s' = None.
Proof.
  destruct (clone_copies_all_but_Voters heap0 st0 1 2 100 30)
    as (s' & h' & lb' & lw' & E & _ & (Eb & Hb) & (Ew & Hw) & (Hc & _)
        & (Ev & _) & _);
    [reflexivity | reflexivity | reflexivity | reflexivity
    | eexists; split; [reflexivity | simpl; lia] |].
  exists s', h', lb', lw'. repeat split; assumption.
Defined.

(** C6 as first stated ("for every State") fails: the clone of a state whose
    [VotingWeight] is nil panics, since [Set] dereferences its argument. *)
Lemma clone_nil_VotingWeight_panics : clone st_noweight heap0 = Panic.
Proof. vm_compute. reflexivity. Qed.

(** ** Further properties of the mutators and of [clone] *)

(** X1.  [AddBalance] has no failure case: for a balance [b] and an amount
    [a] it returns nil and the balance object holds [b + a].  It writes the
    balance object only: no [big.Int] is created, every other [big.Int] of
    the store (the amount and the voting weight among them, when they are
    other objects) keeps its value, and the byte arrays and the maps are
    untouched. *)
Theorem AddBalance_credits_only_the_balance h st lb la b a :
  Balance st = Some lb -> ints h !! lb = Some b -> ints h !! la = Some a ->
  exists h', AddBalance st (Some la) h = Ok (None, h')
             /\ ints h' !! lb = Some (b + a)%Z
             /\ (forall l, l <> lb -> ints h' !! l = ints h !! l)
             /\ dom (ints h') = dom (ints h)
             /\ arrays h' = arrays h /\ maps h' = maps h.
Proof.
  intros Eb Hb Ha.
  rewrite (AddBalance_Some _ _ _ _ _ _ Eb Hb Ha).
  eexists; split; [reflexivity |]. simpl.
  split; [apply lookup_insert_eq |].
  split; [intros l Hl; now apply lookup_insert_ne |].
  split; [| done].
  rewrite dom_insert_L.
  assert (Hin : lb ∈ dom (ints h)) by (apply elem_of_dom; eauto).
  apply set_eq. intros l. rewrite elem_of_union, elem_of_singleton.
  split; [intros [-> | Hl]; assumption | intros Hl; now right].
Qed.

Lemma AddBalance_credits_only_the_balance_witness :
  exists h', AddBalance st0 (Some 2%positive) heap0 = Ok (None, h')
             /\ ints h' !! 1%positive = Some 130%Z
             /\ ints h' !! 2%positive = Some 30%Z.
Proof.
  destruct (AddBalance_credits_only_the_balance heap0 st0 1 2 100 30)
    as (h' & E & Hb & Hkeep & _); [reflexivity | reflexivity | reflexivity |].
  exists h'. split; [exact E |]. split; [exact Hb |].
  rewrite Hkeep; [reflexivity | discriminate].
Defined.

(** X2.  Crediting and then debiting: from a balance [b >= 0],
    [AddBalance] of an amount object and then [SubBalance] of the same
    object both return nil and leave the whole store exactly as it was,
    whatever the sign of the amount, provided the amount is not the balance
    object itself. *)
Theorem AddBalance_then_SubBalance_restores h st lb la b a :
  Balance st = Some lb -> ints h !! lb = Some b -> ints h !! la = Some a ->
  la <> lb -> (0 <= b)%Z ->
  exists h1, AddBalance st (Some la) h = Ok (None, h1)
             /\ SubBalance st (Some la) h1 = Ok (None, h).
Proof.
  intros Eb Hb Ha Hne Hb0.
  rewrite (AddBalance_Some _ _ _ _ _ _ Eb Hb Ha).
  eexists; split; [reflexivity |].
  assert (Hb1 : ints (set_ints h (<[lb := (b + a)%Z]> (ints h))) !! lb
                = Some (b + a)%Z) by apply lookup_insert_eq.
  assert (Ha1 : ints (set_ints h (<[lb := (b + a)%Z]> (ints h))) !! la
                = Some a).
  { simpl. now rewrite lookup_insert_ne by done. }
  rewrite (SubBalance_Some _ _ _ _ _ _ Eb Hb1 Ha1).
  destruct (Z.ltb_spec (b + a) a); [lia |].
  do 2 f_equal. unfold set_ints. simpl.
  rewrite insert_insert_eq.
  replace (b + a - a)%Z with b by lia.
  rewrite insert_id by exact Hb. now destruct h.
Qed.

Lemma AddBalance_then_SubBalance_restores_witness :
  exists h1, AddBalance st0 (Some 2%positive) heap0 = Ok (None, h1)
             /\ SubBalance st0 (Some 2%positive) h1 = Ok (None, heap0).
Proof.
  apply (AddBalance_then_SubBalance_restores heap0 st0 1 2 100 30);
    [reflexivity | reflexivity | reflexivity | discriminate | lia].
Defined.

(** X3.  Neither mutator looks at the sign of the amount.  With a negative
    amount [a] and a balance [b >= 0], [SubBalance] is not refused (the only
    test is [a > b]) and raises the balance to [b - a]; [AddBalance] lowers
    it to [b + a], below zero when [b < -a]. *)
Theorem amount_sign_is_not_checked h st lb la b a :
  Balance st = Some lb -> ints h !! lb = Some b -> ints h !! la = Some a ->
  (a < 0)%Z -> (0 <= b)%Z ->
  (exists h' b', SubBalance st (Some la) h = Ok (None, h')
                 /\ ints h' !! lb = Some b' /\ b' = (b - a)%Z /\ (b < b')%Z)
  /\ (exists h' b', AddBalance st (Some la) h = Ok (None, h')
                    /\ ints h' !! lb = Some b' /\ b' = (b + a)%Z
                    /\ ((b < - a)%Z -> (b' < 0)%Z)).
Proof.
  intros Eb Hb Ha Ha0 Hb0. split.
  - rewrite (SubBalance_Some _ _ _ _ _ _ Eb Hb Ha).
    destruct (Z.ltb_spec b a); [lia |].
    eexists _, _. split; [reflexivity |]. simpl.
    split; [apply lookup_insert_eq |]. split; [reflexivity | lia].
  - rewrite (AddBalance_Some _ _ _ _ _ _ Eb Hb Ha).
    eexists _, _. split; [reflexivity |]. simpl.
    split; [apply lookup_insert_eq |]. split; [reflexivity | lia].
Qed.

Lemma amount_sign_is_not_checked_witness :
  (exists h', SubBalance st0 (Some 4%positive) heap_debt = Ok (None, h')
              /\ ints h' !! 1%positive = Some 250%Z)
  /\ (exists h', AddBalance st0 (Some 4%positive) heap_debt = Ok (None, h')
                 /\ ints h' !! 1%positive = Some (-50)%Z).
Proof.
  destruct (amount_sign_is_not_checked heap_debt st0 1 4 100 (-150))
    as [(h1 & b1 & E1 & H1 & -> & _) (h2 & b2 & E2 & H2 & -> & _)];
    [reflexivity | reflexivity | reflexivity | lia | lia |].
  split; [exists h1 | exists h2]; split; assumption.
Defined.

(** X4.  Neither mutator checks its pointers: when the [Balance] of the
    state is nil, or when the amount is nil, [AddBalance] and [SubBalance]
    panic (no error is returned). *)
Theorem mutators_panic_on_nil h st amount :
  Balance st = None \/ amount = None ->
  AddBalance st amount h = Panic /\ SubBalance st amount h = Panic.
Proof.
  intros [Eb | ->].
  - unfold AddBalance, SubBalance, Int_Add, Int_Cmp, bind. rewrite Eb.
    split; [reflexivity |].
    destruct (Int_val amount h) as [[v h'] |]; reflexivity.
  - unfold AddBalance, SubBalance, Int_Add, Int_Cmp, bind.
    split; [| reflexivity].
    destruct (Int_val (Balance st) h) as [[v h'] |]; reflexivity.
Qed.

Lemma mutators_panic_on_nil_witness :
  AddBalance State_zero (Some 2%positive) heap0 = Panic
  /\ SubBalance st0 None heap0 = Panic.
Proof.
  split.
  - apply (mutators_panic_on_nil heap0 State_zero (Some 2%positive)).
    left. reflexivity.
  - apply (mutators_panic_on_nil heap0 st0 None). right. reflexivity.
Defined.

(** X5.  The amount may be the balance object itself ([big.Int] operations
    allow their operands to alias the receiver): [st.AddBalance(st.Balance)]
    doubles the balance, and [st.SubBalance(st.Balance)] is never refused
    and leaves a balance of 0, whatever the sign of the balance. *)
Theorem amount_aliasing_the_balance h st lb b :
  Balance st = Some lb -> ints h !! lb = Some b ->
  (exists h', AddBalance st (Balance st) h = Ok (None, h')
              /\ ints h' !! lb = Some (2 * b)%Z)
  /\ (exists h', SubBalance st (Balance st) h = Ok (None, h')
                 /\ ints h' !! lb = Some 0%Z).
Proof.
  intros Eb Hb. rewrite Eb. split.
  - rewrite (AddBalance_Some _ _ _ _ _ _ Eb Hb Hb).
    eexists; split; [reflexivity |]. simpl.
    rewrite lookup_insert_eq. f_equal. lia.
  - rewrite (SubBalance_Some _ _ _ _ _ _ Eb Hb Hb).
    rewrite Z.ltb_irrefl.
    eexists; split; [reflexivity |]. simpl.
    rewrite lookup_insert_eq. f_equal. lia.
Qed.

Lemma amount_aliasing_the_balance_witness :
  (exists h', AddBalance st0 (Balance st0) heap0 = Ok (None, h')
              /\ ints h' !! 1%positive = Some 200%Z)
  /\ (exists h', SubBalance st0 (Balance st0) heap0 = Ok (None, h')
                 /\ ints h' !! 1%positive = Some 0%Z).
Proof.
  apply (amount_aliasing_the_balance heap0 st0 1 100); reflexivity.
Defined.

(** X6.  [clone] dereferences [Balance] and [VotingWeight] without a nil
    check (only [CodeHash] is guarded): on every state in which one of the
    two is nil it panics, in every store. *)
Theorem clone_panics_on_nil_Balance_or_VotingWeight h st :
  Balance st = None \/ VotingWeight st = None -> clone st h = Panic.
Proof.
  intros [E | E]; unfold clone; rewrite E.
  - reflexivity.
  - unfold bind at 1. unfold new_Int at 1.
    unfold bind at 1.
    destruct (Int_Set _ (Balance st) _) as [[b h1] |]; reflexivity.
Qed.

Lemma clone_panics_on_nil_Balance_or_VotingWeight_witness :
  clone State_zero heap0 = Panic.
Proof.
  apply (clone_panics_on_nil_Balance_or_VotingWeight heap0 State_zero).
  left. reflexivity.
Defined.

End state_properties.

Section itx_properties.
Import itx.

Lemma run_call `{Imports} {X R} (o : Oracle) (e : Eff X) (k : X -> Prog R) hist :
  run o (x <- call e ;; k x) hist
  = run o (k (o _ hist e)) (hist ++ [Ev e (o _ hist e)]).
Proof. reflexivity. Qed.

Lemma run_recv_Some `{Imports} {A R} (o : Oracle) (a : A) (k : A -> Prog R) hist :
  run o (x <- recv (Some a) ;; k x) hist = run o (k a) hist.
Proof. reflexivity. Qed.

Lemma run_recv_None `{Imports} {A R} (o : Oracle) (k : A -> Prog R) hist :
  run o (x <- recv None ;; k x) hist = (hist, Panicked).
Proof. reflexivity. Qed.

(** C10.  An action message that carries neither a transfer, nor a vote,
    nor an execution: [HandleAction] returns nil and makes no call at all
    (none on the action pool, and no log event either), whatever the
    subscriber's components and the environment are. *)
Theorem HandleAction_without_kind_returns_nil `{Imports} bcs act o hist :
  GetTransfer act = None -> GetVote act = None -> GetExecution act = None ->
  run o (HandleAction bcs act) hist = (hist, Returned None).
Proof.
  intros Ht Hv He. unfold HandleAction. rewrite Ht, Hv, He. reflexivity.
Qed.

Lemma HandleAction_without_kind_returns_nil_witness :
  run env_ok (@HandleAction sample bcs0 act_none) [] = ([], Returned None).
Proof.
  apply (@HandleAction_without_kind_returns_nil sample bcs0 act_none env_ok []);
    reflexivity.
Defined.

(** C8, as amended.  With its three components present, the subscriber
    routes a message to its one designated component and returns what that
    call returns:
    - [HandleAction] converts a message that carries a transfer, else a
      vote, else an execution, and makes exactly one call that is not a log
      event, the [Add...] of the action pool for that kind; a message that
      carries none of the three makes no call and returns nil;
    - [HandleBlock], [HandleBlockSync] and [HandleSyncRequest] make the one
      call [ProcessBlock], [ProcessBlockSync], [ProcessSyncRequest] on the
      block syncer;
    - [HandleViewChange] and [HandleBlockPropose] pass the message as it is
      to the consensus handler of the same name. *)
Theorem bcService_routes_to_one_component `{Imports} bcs a b c (o : Oracle) :
  ap bcs = Some a -> bs bcs = Some b -> cs bcs = Some c ->
  (forall act,
     let r := run o (HandleAction bcs act) [] in
     match GetTransfer act, GetVote act, GetExecution act with
     | Some _, _, _ =>
         let e := ActPool_AddTsf a
                    (Transfer_ConvertFromActionPb Transfer_zero act) in
         calls (fst r) = [Ev e (o _ [] e)] /\ snd r = Returned (o _ [] e)
     | None, Some _, _ =>
         let e := ActPool_AddVote a
                    (Vote_ConvertFromActionPb Vote_zero act) in
         calls (fst r) = [Ev e (o _ [] e)] /\ snd r = Returned (o _ [] e)
     | None, None, Some _ =>
         let e := ActPool_AddExecution a
                    (Execution_ConvertFromActionPb Execution_zero act) in
         calls (fst r) = [Ev e (o _ [] e)] /\ snd r = Returned (o _ [] e)
     | None, None, None => r = ([], Returned None)
     end)
  /\ (forall blk,
        let e := BlockSync_ProcessBlock b blk in
        run o (HandleBlock bcs blk) [] = ([Ev e (o _ [] e)], Returned (o _ [] e)))
  /\ (forall blk,
        let e := BlockSync_ProcessBlockSync b blk in
        run o (HandleBlockSync bcs blk) []
        = ([Ev e (o _ [] e)], Returned (o _ [] e)))
  /\ (forall sender sync,
        let e := BlockSync_ProcessSyncRequest b sender sync in
        run o (HandleSyncRequest bcs sender sync) []
        = ([Ev e (o _ [] e)], Returned (o _ [] e)))
  /\ (forall msg,
        let e := Consensus_HandleViewChange c msg in
        run o (HandleViewChange bcs msg) []
        = ([Ev e (o _ [] e)], Returned (o _ [] e)))
  /\ (forall msg,
        let e := Consensus_HandleBlockPropose c msg in
        run o (HandleBlockPropose bcs msg) []
        = ([Ev e (o _ [] e)], Returned (o _ [] e))).
Proof.
  intros Ha Hb Hc. split.
  { intros act. unfold HandleAction. rewrite Ha.
    destruct (GetTransfer act) as [pbTsf |].
    - cbv zeta. rewrite run_recv_Some, run_call.
      destruct (o _ [] (ActPool_AddTsf a _)); [| split; reflexivity].
      rewrite run_call. split; reflexivity.
    - destruct (GetVote act) as [pbVote |].
      + cbv zeta. rewrite run_recv_Some, run_call.
        destruct (o _ [] (ActPool_AddVote a _)); [| split; reflexivity].
        rewrite run_call. split; reflexivity.
      + destruct (GetExecution act) as [pbExecution |]; [| reflexivity].
        cbv zeta. rewrite run_recv_Some, run_call.
        destruct (o _ [] (ActPool_AddExecution a _)); [| split; reflexivity].
        rewrite run_call. split; reflexivity. }
  unfold HandleBlock, HandleBlockSync, HandleSyncRequest, HandleViewChange,
    HandleBlockPropose.
  rewrite Hb, Hc. repeat split.
Qed.

Lemma bcService_routes_to_one_component_witness :
  calls (fst (run env_ok (@HandleAction sample bcs0 act_transfer) []))
  = [Ev (@ActPool_AddTsf sample 2%positive (Some act_transfer)) None]
  /\ run env_ok (@HandleBlock sample bcs0 9%Z) []
     = ([Ev (@BlockSync_ProcessBlock sample 4%positive 9%Z) None],
        Returned None).
Proof.
  destruct (@bcService_routes_to_one_component sample bcs0 2%positive
              4%positive 3%positive env_ok)
    as (Hact & Hblk & _); [reflexivity | reflexivity | reflexivity |].
  split.
  - exact (proj1 (Hact act_transfer)).
  - exact (Hblk 9%Z).
Defined.

(** C8 as first stated ("every message to exactly one subsystem") fails on
    an action message that carries no action: no call is made. *)
Lemma HandleAction_act_none_makes_no_call :
  length (calls (fst (run env_ok (@HandleAction sample bcs0 act_none) [])))
  <> 1.
Proof. vm_compute. discriminate. Qed.

Lemma run_stage_Some `{Imports} (o : Oracle) c verb ctx message next hist :
  run o (stage (Some c) verb ctx message next) hist
  = match o _ hist (verb c ctx) with
    | Some e => (hist ++ [Ev (verb c ctx) (Some e)],
                 Returned (Some (errors_Wrap e message)))
    | None => run o next (hist ++ [Ev (verb c ctx) None])
    end.
Proof.
  unfold stage. rewrite run_recv_Some, run_call.
  destruct (o _ hist (verb c ctx)); reflexivity.
Qed.

Lemma run_stage_None `{Imports} (o : Oracle) verb ctx message next hist :
  run o (stage None verb ctx message next) hist = (hist, Panicked).
Proof. reflexivity. Qed.

(** One stage of the code against one stage of [run_stages]. *)
Ltac stage_step o :=
  match goal with
  | |- run o (stage (?f <$> ?x) ?verb ?ctx _ _) ?h = _ =>
      let c := fresh "c" in
      cbn [run_stages component];
      destruct x as [c |]; cbn [fmap option_fmap option_map];
      [ rewrite run_stage_Some;
        destruct (o _ h (verb (f c) ctx)); [reflexivity |]
      | reflexivity ]
  end.

(** [Start] and [Stop] are staged runs, each in its own order. *)
Lemma Start_run_stages `{Imports} (o : Oracle) s ctx hist :
  run o (Start s ctx) hist
  = run_stages o Component_Start start_message s ctx start_order hist.
Proof.
  unfold Start, start_order.
  repeat stage_step o. reflexivity.
Qed.

Lemma Stop_run_stages `{Imports} (o : Oracle) s ctx hist :
  run o (Stop s ctx) hist
  = run_stages o Component_Stop stop_message s ctx stop_order hist.
Proof.
  unfold Stop, stop_order.
  repeat stage_step o. reflexivity.
Qed.

Lemma collect_app `{Imports} f (t1 t2 : list Event) :
  collect f (t1 ++ t2) = collect f t1 ++ collect f t2.
Proof.
  induction t1 as [| ev t1 IH]; simpl; [reflexivity |].
  destruct (f ev); simpl; now rewrite IH.
Qed.

Lemma component_kind `{Imports} s x c : component s x = Some c -> kind c = x.
Proof.
  destruct x; simpl; intros E;
    match type of E with _ <$> ?y = _ => destruct y end;
    simpl in E; inversion E; reflexivity.
Qed.

(** The stages that a staged run goes through are the first ones of its
    order, and all of them when it returns nil; a failure is the wrapped
    error of the last stage gone through. *)
Lemma run_stages_collect `{Imports} (o : Oracle) verb f message s ctx order
  hist :
  (forall c r, f (Ev (verb c ctx) r) = Some (kind c)) ->
  exists gone,
    collect f (fst (run_stages o verb message s ctx order hist))
    = collect f hist ++ gone
    /\ gone `prefix_of` order
    /\ (snd (run_stages o verb message s ctx order hist) = Returned None ->
        gone = order)
    /\ (forall e,
          snd (run_stages o verb message s ctx order hist)
          = Returned (Some e) ->
          exists x cause, last gone = Some x
                          /\ e = errors_Wrap cause (message x)).
Proof.
  intros Hf. revert hist.
  induction order as [| x rest IH]; intros hist; simpl.
  - exists []. rewrite app_nil_r. repeat split; try done.
  - destruct (component s x) as [c |] eqn:Ec; simpl.
    + apply component_kind in Ec.
      destruct (o _ hist (verb c ctx)) as [e |]; simpl.
      * exists [x]. rewrite collect_app. simpl. rewrite Hf, Ec.
        split; [reflexivity |]. split; [apply prefix_cons, prefix_nil |].
        split; [discriminate |].
        intros e' E. injection E as <-. exists x, e. done.
      * destruct (IH (hist ++ [Ev (verb c ctx) None]))
          as (gone & E & Hp & Hall & Herr).
        exists (x :: gone). rewrite E, collect_app. simpl. rewrite Hf, Ec.
        rewrite <- app_assoc. split; [reflexivity |].
        split; [now apply prefix_cons |].
        split; [intros E'; f_equal; auto |].
        intros e E'. destruct (Herr e E') as (y & cause & Hl & ->).
        exists y, cause. split; [| reflexivity].
        destruct gone; [discriminate | exact Hl].
    + exists []. rewrite app_nil_r. split; [reflexivity |].
      split; [apply prefix_nil |]. split; discriminate.
Qed.

(** C3, as amended.  [Start] starts the subsystems in the order chain,
    dispatcher, consensus, block-sync, network transport, explorer, and
    [Stop] stops them in the order explorer, network transport, consensus,
    block-sync, dispatcher, chain: the reverse of the start order but for
    consensus, which is stopped before block-sync.  In both, the stages gone
    through are the first ones of the order and all of them when nil is
    returned; the failure of a stage ends the sequence there and is returned
    wrapped with that stage's message. *)
Theorem Start_and_Stop_run_in_order `{Imports} (o : Oracle) s ctx :
  let rs := run o (Start s ctx) [] in
  let rp := run o (Stop s ctx) [] in
  start_order
  = [S_chain; S_dispatcher; S_consensus; S_blocksync; S_p2p; S_explorer]
  /\ stop_order
     = [S_explorer; S_p2p; S_consensus; S_blocksync; S_dispatcher; S_chain]
  /\ rs = run_stages o Component_Start start_message s ctx start_order []
  /\ rp = run_stages o Component_Stop stop_message s ctx stop_order []
  /\ started (fst rs) `prefix_of` start_order
  /\ (snd rs = Returned None -> started (fst rs) = start_order)
  /\ (forall e, snd rs = Returned (Some e) ->
        exists x cause, last (started (fst rs)) = Some x
                        /\ e = errors_Wrap cause (start_message x))
  /\ stopped (fst rp) `prefix_of` stop_order
  /\ (snd rp = Returned None -> stopped (fst rp) = stop_order)
  /\ (forall e, snd rp = Returned (Some e) ->
        exists x cause, last (stopped (fst rp)) = Some x
                        /\ e = errors_Wrap cause (stop_message x)).
Proof.
  intros rs rp. subst rs rp.
  rewrite Start_run_stages, Stop_run_stages.
  split; [reflexivity |]. split; [reflexivity |].
  split; [reflexivity |]. split; [reflexivity |].
  destruct (run_stages_collect o Component_Start started_by start_message
              s ctx start_order [])
    as (g1 & E1 & P1 & A1 & F1); [reflexivity |].
  destruct (run_stages_collect o Component_Stop stopped_by stop_message
              s ctx stop_order [])
    as (g2 & E2 & P2 & A2 & F2); [reflexivity |].
  unfold started, stopped. rewrite E1, E2. cbn [collect app].
  repeat split; assumption.
Qed.

Lemma Start_and_Stop_run_in_order_witness :
  started (fst (run env_ok (@Start sample server0 tt) [])) = start_order
  /\ stopped (fst (run env_ok (@Stop sample server0 tt) [])) = stop_order.
Proof.
  destruct (@Start_and_Stop_run_in_order sample env_ok server0 tt)
    as (_ & _ & _ & _ & _ & Hs & _ & _ & Hp & _).
  split; [apply Hs | apply Hp]; reflexivity.
Defined.

(** C3 as first stated ("Stop order is the exact reverse") fails: with
    every stage succeeding, the subsystems are not stopped in the reverse of
    the order in which they were started. *)
Lemma Stop_is_not_the_reverse_of_Start :
  stopped (fst (run env_ok (@Stop sample server0 tt) []))
  <> rev (started (fst (run env_ok (@Start sample server0 tt) []))).
Proof. vm_compute. discriminate. Qed.

Lemma run_log `{Imports} {R} (o : Oracle) lvl fields msg (k : unit -> Prog R)
  hist :
  run o (x <- call (logger_Event lvl fields msg) ;; k x) hist
  = run o (k tt) (hist ++ [Ev (logger_Event lvl fields msg) tt]).
Proof. rewrite run_call. now destruct (o unit hist _). Qed.

Lemma NewServer_enters_fall_back `{Imports} (o : Oracle) cfg :
  o _ [] (first_creation cfg) = None ->
  Chain_EnableFallBackToFreshDB cfg = true ->
  run o (NewServer cfg) [] = run o (set_aside_and_retry cfg) (after_warning cfg).
Proof.
  intros Hnil Hflag. unfold NewServer. rewrite run_call.
  fold (first_creation cfg). rewrite Hnil, Hflag. cbn [andb].
  rewrite run_log. reflexivity.
Qed.

(** C7.  When the first creation of the blockchain returns nil and the
    fall-back flag is set, [NewServer] warns, then renames the chain db path
    to the same path with ".old" appended, then the trie db path likewise,
    then creates the blockchain again and goes on with that second chain.
    If the first rename fails nothing else is tried, if the second fails no
    chain is created again; in both cases the error is logged and
    [NewServer] returns nil. *)
Theorem NewServer_falls_back_to_fresh_db `{Imports} (o : Oracle) cfg :
  o _ [] (first_creation cfg) = None ->
  Chain_EnableFallBackToFreshDB cfg = true ->
  (forall e,
     o _ (after_warning cfg) (rename_chain_db cfg) = Some e ->
     run o (NewServer cfg) []
     = (after_warning cfg
        ++ [Ev (rename_chain_db cfg) (Some e);
            Ev (logger_Event Error [F_Err e]
                  (Some "Failed to rename old chain db")) tt],
        Returned None))
  /\ (forall e,
        o _ (after_warning cfg) (rename_chain_db cfg) = None ->
        o _ (after_chain_db cfg) (rename_trie_db cfg) = Some e ->
        run o (NewServer cfg) []
        = (after_chain_db cfg
           ++ [Ev (rename_trie_db cfg) (Some e);
               Ev (logger_Event Error [F_Err e]
                     (Some "Failed to rename old trie db")) tt],
           Returned None))
  /\ (o _ (after_warning cfg) (rename_chain_db cfg) = None ->
      o _ (after_chain_db cfg) (rename_trie_db cfg) = None ->
      let chain2 := o _ (after_trie_db cfg) (first_creation cfg) in
      run o (NewServer cfg) []
      = run o (NewServer_finish cfg chain2)
            (after_trie_db cfg ++ [Ev (first_creation cfg) chain2])).
Proof.
  intros Hnil Hflag.
  rewrite (NewServer_enters_fall_back o cfg Hnil Hflag).
  unfold set_aside_and_retry. rewrite run_call.
  split; [| split].
  - intros e He. rewrite He, run_log. reflexivity.
  - intros e He1 He2. rewrite He1, run_call.
    fold (after_chain_db cfg). rewrite He2, run_log. reflexivity.
  - intros He1 He2. cbv zeta. rewrite He1, run_call.
    fold (after_chain_db cfg). rewrite He2, run_call. reflexivity.
Qed.

Lemma NewServer_falls_back_to_fresh_db_witness :
  run env_locked (@NewServer sample cfg0) []
  = (@after_warning sample cfg0
     ++ [Ev (@rename_chain_db sample cfg0)
            (Some (errors_New "permission denied"));
         Ev (@logger_Event sample Error
               [F_Err (errors_New "permission denied")]
               (Some "Failed to rename old chain db")) tt],
     Returned None)
  /\ snd (run env_fresh (@NewServer sample cfg0) [])
     = Returned (Some server0).
Proof.
  split.
  - destruct (@NewServer_falls_back_to_fresh_db sample env_locked cfg0)
      as (H1 & _); [reflexivity | reflexivity |].
    apply H1. reflexivity.
  - destruct (@NewServer_falls_back_to_fresh_db sample env_fresh cfg0)
      as (_ & _ & H3); [reflexivity | reflexivity |].
    rewrite H3; reflexivity.
Defined.

(** What the end of [NewServer] does with a chain that is not nil. *)
Lemma NewServer_finish_Some `{Imports} (o : Oracle) cfg c hist :
  let id := o _ hist (Blockchain_ChainID c) in
  run o (NewServer_finish cfg (Some c)) hist
  = run o (s <- newServer cfg (Some c) ;; Ret (Some s))
        (hist ++ [Ev (Blockchain_ChainID c) id]
         ++ [Ev (logger_Event Error [F_Uint32 "chain id" id]
                   (Some "Chain ID for new server")) tt]).
Proof.
  intros id. unfold NewServer_finish.
  rewrite run_recv_Some, run_call, run_log. fold id.
  rewrite <- app_assoc. reflexivity.
Qed.

(** C9.  [NewServer] checks the created chain for nil only to decide on the
    fall-back.  Its last part calls [ChainID] on the chain it is given and
    panics at once when that chain is nil.  So [NewServer] panics, right
    after the creation that returned nil, when the chain could not be
    created and the flag is unset, and when the chain could not be created
    again after the two renames.  When the first creation succeeds no
    rename happens, the chain id is read and logged, and [NewServer] goes on
    into [newServer] with that chain. *)
Theorem NewServer_dereferences_nil_chain `{Imports} (o : Oracle) cfg :
  (forall hist, run o (NewServer_finish cfg None) hist = (hist, Panicked))
  /\ (o _ [] (first_creation cfg) = None ->
      Chain_EnableFallBackToFreshDB cfg = false ->
      run o (NewServer cfg) [] = ([Ev (first_creation cfg) None], Panicked))
  /\ (o _ [] (first_creation cfg) = None ->
      Chain_EnableFallBackToFreshDB cfg = true ->
      o _ (after_warning cfg) (rename_chain_db cfg) = None ->
      o _ (after_chain_db cfg) (rename_trie_db cfg) = None ->
      o _ (after_trie_db cfg) (first_creation cfg) = None ->
      run o (NewServer cfg) []
      = (after_trie_db cfg ++ [Ev (first_creation cfg) None], Panicked))
  /\ (forall c,
        o _ [] (first_creation cfg) = Some c ->
        let t1 := [Ev (first_creation cfg) (Some c)] in
        let id := o _ t1 (Blockchain_ChainID c) in
        run o (NewServer cfg) []
        = run o (s <- newServer cfg (Some c) ;; Ret (Some s))
              (t1 ++ [Ev (Blockchain_ChainID c) id]
               ++ [Ev (logger_Event Error [F_Uint32 "chain id" id]
                         (Some "Chain ID for new server")) tt])).
Proof.
  split; [reflexivity |]. split; [| split].
  - intros Hnil Hflag. unfold NewServer. rewrite run_call.
    fold (first_creation cfg). rewrite Hnil, Hflag. reflexivity.
  - intros Hnil Hflag H1 H2 H3.
    rewrite (NewServer_enters_fall_back o cfg Hnil Hflag).
    unfold set_aside_and_retry. rewrite run_call, H1, run_call.
    fold (after_chain_db cfg). rewrite H2, run_call.
    fold (after_trie_db cfg). rewrite H3. reflexivity.
  - intros c Hc t1 id. unfold NewServer. rewrite run_call.
    fold (first_creation cfg). rewrite Hc. cbn [andb].
    apply NewServer_finish_Some.
Qed.

Lemma NewServer_dereferences_nil_chain_witness :
  run env_no_chain (@NewServer sample cfg1) []
  = ([Ev (@first_creation sample cfg1) None], Panicked)
  /\ run env_no_chain (@NewServer sample cfg0) []
     = (@after_trie_db sample cfg0 ++ [Ev (@first_creation sample cfg0) None],
        Panicked)
  /\ snd (run env_ok (@NewServer sample cfg1) []) = Returned (Some (@mk_Server sample cfg1 (Some 1%positive) (Some 2%positive) (Some 5%positive)
            (Some 3%positive) (Some 4%positive) (Some 6%positive)
            (Some 7%positive))).
Proof.
  split; [| split].
  - destruct (@NewServer_dereferences_nil_chain sample env_no_chain cfg1)
      as (_ & H2 & _). apply H2; reflexivity.
  - destruct (@NewServer_dereferences_nil_chain sample env_no_chain cfg0)
      as (_ & _ & H3 & _). apply H3; reflexivity.
  - destruct (@NewServer_dereferences_nil_chain sample env_ok cfg1)
      as (_ & _ & _ & H4).
    rewrite (H4 1%positive); reflexivity.
Defined.

(** ** Further properties of the subscriber *)

(** X7.  The subscriber does not check its components.  With a nil action
    pool, [HandleAction] panics on every message that carries a transfer, a
    vote or an execution, before any call is made; with a nil block syncer
    [HandleBlock], [HandleBlockSync] and [HandleSyncRequest] panic; with a
    nil consensus [HandleViewChange] and [HandleBlockPropose] panic. *)
Theorem handlers_panic_on_nil_component `{Imports} (o : Oracle) bcs hist :
  (ap bcs = None ->
   forall act,
     GetTransfer act <> None \/ GetVote act <> None
     \/ GetExecution act <> None ->
     run o (HandleAction bcs act) hist = (hist, Panicked))
  /\ (bs bcs = None ->
      forall blk sender sync,
        run o (HandleBlock bcs blk) hist = (hist, Panicked)
        /\ run o (HandleBlockSync bcs blk) hist = (hist, Panicked)
        /\ run o (HandleSyncRequest bcs sender sync) hist = (hist, Panicked))
  /\ (cs bcs = None ->
      forall msg,
        run o (HandleViewChange bcs msg) hist = (hist, Panicked)
        /\ run o (HandleBlockPropose bcs msg) hist = (hist, Panicked)).
Proof.
  split; [| split].
  - intros Ea act Hkind. unfold HandleAction. rewrite Ea.
    destruct (GetTransfer act); [reflexivity |].
    destruct (GetVote act); [reflexivity |].
    destruct (GetExecution act); [reflexivity |].
    destruct Hkind as [Hk | [Hk | Hk]]; contradiction.
  - intros Eb blk sender sync.
    unfold HandleBlock, HandleBlockSync, HandleSyncRequest. rewrite Eb.
    repeat split.
  - intros Ec msg. unfold HandleViewChange, HandleBlockPropose. rewrite Ec.
    split; reflexivity.
Qed.

Lemma handlers_panic_on_nil_component_witness :
  run env_ok (@HandleAction sample bcs_nil act_transfer) [] = ([], Panicked)
  /\ run env_ok (@HandleBlock sample bcs_nil 9%Z) [] = ([], Panicked)
  /\ run env_ok (@HandleViewChange sample bcs_nil "view change") []
     = ([], Panicked).
Proof.
  destruct (@handlers_panic_on_nil_component sample env_ok bcs_nil [])
    as (Ha & Hb & Hc).
  split; [| split].
  - apply Ha; [reflexivity | left; discriminate].
  - apply (Hb eq_refl 9%Z "" (0%Z, 0%Z)).
  - apply (Hc eq_refl "view change").
Defined.



(** ** Programs and their calls *)

Lemma run_bind `{Imports} {A B} (o : Oracle) (p : Prog A) (k : A -> Prog B) hist :
  run o (x <- p ;; k x) hist
  = match run o p hist with
    | (t, Returned a) => run o (k a) t
    | (t, Panicked) => (t, Panicked)
    | (t, Exited) => (t, Exited)
    end.
Proof.
  revert hist. induction p as [a | | | X e h IH]; intros hist;
    try reflexivity.
  cbn [bind run]. apply IH.
Qed.

(** The calls of a run are those of the program: if every call that the
    program can make satisfies [P], the run adds to the trace only calls
    that satisfy [P]. *)
Lemma run_only `{Imports} {R} (o : Oracle) P (p : Prog R) hist :
  only P p ->
  exists t, fst (run o p hist) = hist ++ t /\ every P t.
Proof.
  revert hist. induction p as [a | | | X e h IH]; intros hist Hp;
    try (exists []; rewrite app_nil_r; split; [reflexivity | exact I]).
  cbn [run]. destruct (Hp (o _ hist e)) as [He Hk].
  destruct (IH _ (hist ++ [Ev e (o _ hist e)]) Hk) as (t & E & Ht).
  exists (Ev e (o _ hist e) :: t). rewrite E, <- app_assoc.
  split; [reflexivity | split; assumption].
Qed.

Lemma only_bind `{Imports} {A B} P (p : Prog A) (k : A -> Prog B) :
  only P p -> (forall a, only P (k a)) -> only P (x <- p ;; k x).
Proof.
  intros Hp Hk. induction p as [a | | | X e h IH]; cbn [bind only];
    try exact I; [apply Hk |].
  intros x. destruct (Hp x) as [He Hh]. split; [exact He | now apply IH].
Qed.

Lemma only_stage `{Imports} P x verb ctx message next :
  (forall c r, x = Some c -> P (Ev (verb c ctx) r)) ->
  only P next -> only P (stage x verb ctx message next).
Proof.
  intros Hx Hnext. unfold stage. destruct x as [c |]; [| exact I].
  cbn [recv bind call only]. intros r. split; [now apply Hx |].
  destruct r; [exact I | exact Hnext].
Qed.

(** ** Further properties of [Start] and [Stop] *)

(** X9.  Every call that [Start] makes is the [Start] of one of the
    server's own components, with the context that [Start] was given; every
    call that [Stop] makes is the [Stop] of one of them.  So [Start] stops
    nothing, also when a stage fails after others have succeeded (there is
    no roll-back), and neither of the two logs or creates anything. *)
Theorem Start_and_Stop_call_only_own_components `{Imports} (o : Oracle) s ctx :
  every (own_start s ctx) (fst (run o (Start s ctx) []))
  /\ every (own_stop s ctx) (fst (run o (Stop s ctx) [])).
Proof.
  split.
  - destruct (run_only o (own_start s ctx) (Start s ctx) []) as (t & E & Ht);
      [| rewrite E; exact Ht].
    unfold Start.
    repeat (apply only_stage;
            [ intros c r Ec; destruct s; simpl in *;
              match type of Ec with _ <$> ?y = _ => destruct y end;
              simpl in Ec; inversion Ec; split; reflexivity |]).
    exact I.
  - destruct (run_only o (own_stop s ctx) (Stop s ctx) []) as (t & E & Ht);
      [| rewrite E; exact Ht].
    unfold Stop.
    repeat (apply only_stage;
            [ intros c r Ec; destruct s; simpl in *;
              match type of Ec with _ <$> ?y = _ => destruct y end;
              simpl in Ec; inversion Ec; split; reflexivity |]).
    exact I.
Qed.





(** ** Further properties of the constructors *)

(** What a [newServer] that returns has done. *)
Lemma newServer_Returned `{Imports} (o : Oracle) cfg chain hist t s :
  run o (newServer cfg chain) hist = (t, Returned s) ->
  exists c a p k b d id rest,
    chain = Some c
    /\ s = mk_Server cfg (Some c) a (Some p) (Some k) b (Some d) (explorer s)
    /\ t = hist ++ construction cfg c a p k b d id ++ rest
    /\ (if Explorer_IsTest (cfg_Explorer cfg)
        then rest = [Ev test_warning tt;
                     Ev (explorer_NewTestSever (cfg_Explorer cfg)) (explorer s)]
        else exists env,
            rest = Ev (os_Getenv "APP_ENV") env
                   :: (if String.eqb env "development"
                       then [Ev test_warning tt;
                             Ev (explorer_NewTestSever (cfg_Explorer cfg))
                                (explorer s)]
                       else [Ev (explorer_NewServer (cfg_Explorer cfg) (Some c)
                                   (Some k) (Some d) a (Some p))
                                (explorer s)])).
Proof.
  unfold newServer. intros E.
  rewrite run_call in E.
  remember (o _ hist (network_NewOverlay (cfg_Network cfg))) as p2p eqn:Ep.
  rewrite run_call in E.
  match type of E with context [o _ ?h (actpool_NewActPool ?x ?y)] =>
    destruct (o _ h (actpool_NewActPool x y)) as [a [e |]] eqn:Ea
  end; [cbn [bind logger_Fatal call run] in E; discriminate E |].
  cbn [bind] in E. rewrite run_call in E.
  match type of E with context [o _ ?h (blocksync_NewBlockSyncer ?x ?y ?z ?w)] =>
    destruct (o _ h (blocksync_NewBlockSyncer x y z w)) as [b [e |]] eqn:Eb
  end; [cbn [bind logger_Fatal call run] in E; discriminate E |].
  cbn [bind] in E. rewrite run_call in E.
  match type of E with context [o _ ?h (consensus_NewConsensus ?x ?y ?z ?w)] =>
    destruct (o _ h (consensus_NewConsensus x y z w)) as [k |] eqn:Ek
  end; [| cbn [bind logger_Fatal call run] in E; discriminate E].
  cbn [bind] in E. rewrite run_call in E.
  match type of E with context [o _ ?h (dispatch_NewDispatcher ?x)] =>
    destruct (o _ h (dispatch_NewDispatcher x)) as [d [e |]] eqn:Ed
  end; [cbn [bind logger_Fatal call run] in E; discriminate E |].
  cbn [bind] in E.
  destruct chain as [c |]; [| discriminate E].
  rewrite run_recv_Some, run_call in E.
  destruct d as [d |]; [| discriminate E].
  rewrite run_recv_Some, run_call in E.
  destruct p2p as [p |]; [| discriminate E].
  rewrite run_recv_Some, run_call in E.
  match type of E with context [o Z ?h (Blockchain_ChainID c)] =>
    remember (o Z h (Blockchain_ChainID c)) as id eqn:Eid
  end.
  repeat match type of E with context [o unit ?h ?e] =>
    destruct (o unit h e)
  end.
  exists c, a, p, k, b, d, id.
  destruct (Explorer_IsTest (cfg_Explorer cfg)).
  - cbn [bind call run] in E.
    repeat match type of E with context [o unit ?h ?e] =>
      destruct (o unit h e)
    end.
    match type of E with context [o (nilable explorer_Server) ?h ?e] =>
      remember (o (nilable explorer_Server) h e) as exp eqn:Eexp
    end.
    injection E as <- <-. eexists. split; [reflexivity |].
    split; [reflexivity |]. split; [| reflexivity].
    unfold construction. cbn [explorer]. rewrite <- !app_assoc. reflexivity.
  - cbn [bind call run] in E.
    match type of E with context [o string ?h ?e] =>
      remember (o string h e) as env eqn:Eenv
    end.
    destruct (String.eqb env "development") eqn:Edev.
    + cbn [bind call run] in E.
      repeat match type of E with context [o unit ?h ?e] =>
        destruct (o unit h e)
      end.
      match type of E with context [o (nilable explorer_Server) ?h ?e] =>
      remember (o (nilable explorer_Server) h e) as exp eqn:Eexp
    end.
    injection E as <- <-. eexists. split; [reflexivity |].
      split; [reflexivity |]. split.
      * unfold construction. cbn [explorer]. rewrite <- !app_assoc.
        reflexivity.
      * exists env. rewrite Edev. reflexivity.
    + cbn [bind call run] in E.
      match type of E with context [o (nilable explorer_Server) ?h ?e] =>
      remember (o (nilable explorer_Server) h e) as exp eqn:Eexp
    end.
    injection E as <- <-. eexists. split; [reflexivity |].
      split; [reflexivity |]. split.
      * unfold construction. cbn [explorer]. rewrite <- !app_assoc.
        reflexivity.
      * exists env. rewrite Edev. reflexivity.
Qed.

(** X11.  A server that [newServer] returns is wired as follows.  The chain
    it was given is not nil and is the server's chain; its network, its
    consensus and its dispatcher are not nil.  The first calls were, in this
    order: the creation of the network, of the action pool (on the chain),
    of the block syncer and of the consensus (both on the chain, the action
    pool and the network), of the dispatcher, the reading of the chain id,
    the registration with the dispatcher, under that id, of a subscriber
    made of the server's own action pool, block syncer and consensus, and
    the attachment of the dispatcher to the network.  The getters return
    those very components. *)
Theorem newServer_wires_its_components `{Imports} (o : Oracle) config chain
  hist t s :
  run o (newServer config chain) hist = (t, Returned s) ->
  exists c p k d id rest,
    chain = Some c
    /\ cfg s = config
    /\ Blockchain s = Some c /\ P2P s = Some p /\ Consensus s = Some k
    /\ Dispatcher s = Some d
    /\ t = hist ++ construction config c (ActionPool s) p k (BlockSync s) d id
              ++ rest.
Proof.
  intros E.
  destruct (newServer_Returned o config chain hist t s E)
    as (c & a & p & k & b & d & id & rest & Ec & Es & Et & _).
  exists c, p, k, d, id, rest. rewrite Es.
  unfold Blockchain, P2P, Consensus, Dispatcher, ActionPool, BlockSync.
  cbn [cfg itx.chain p2p consensus dispatcher actPool blocksync].
  repeat split; assumption.
Qed.

Lemma newServer_wires_its_components_witness :
  exists id rest,
    fst (run env_ok (@newServer sample cfg0 (Some 1%positive)) [])
    = [] ++ @construction sample cfg0 1%positive (Some 2%positive) 5%positive
              3%positive (Some 4%positive) 6%positive id ++ rest.
Proof.
  destruct (@newServer_wires_its_components sample env_ok cfg0
              (Some 1%positive) [] _ server0 eq_refl)
    as (c & p & k & d & id & rest & Ec & _ & _ & Ep & Ek & Ed & Et).
  injection Ec as <-. injection Ep as <-. injection Ek as <-.
  injection Ed as <-. exists id, rest. exact Et.
Defined.

Lemma getenvs_app `{Imports} (t1 t2 : list Event) :
  getenvs (t1 ++ t2) = getenvs t1 ++ getenvs t2.
Proof.
  induction t1 as [| [X e x] t1 IH]; simpl; [reflexivity |].
  destruct e; simpl; now rewrite IH.
Qed.

(** X12.  The explorer of a server that [newServer] returns.  When the
    configuration asks for the test explorer ([IsTest]), the environment
    variable is not read, the use of fake data is warned about, and the
    explorer is the one [NewTestSever] returns.  Otherwise [APP_ENV] is read,
    once and after the components are wired: the value [development] gives
    the test explorer in the same way, every other value gives the explorer
    that [NewServer] returns for the server's chain, consensus, dispatcher,
    action pool and network.  Nothing is called after the explorer is
    created. *)
Theorem newServer_selects_explorer `{Imports} (o : Oracle) config chain hist
  t s :
  run o (newServer config chain) hist = (t, Returned s) ->
  exists pre env,
    getenvs pre = getenvs hist
    /\ t = pre
           ++ (if Explorer_IsTest (cfg_Explorer config) then []
               else [Ev (os_Getenv "APP_ENV") env])
           ++ (if Explorer_IsTest (cfg_Explorer config)
                  || String.eqb env "development"
               then [Ev test_warning tt;
                     Ev (explorer_NewTestSever (cfg_Explorer config))
                        (Explorer s)]
               else [Ev (explorer_NewServer (cfg_Explorer config)
                           (Blockchain s) (Consensus s) (Dispatcher s)
                           (ActionPool s) (P2P s))
                        (Explorer s)]).
Proof.
  intros E.
  destruct (newServer_Returned o config chain hist t s E)
    as (c & a & p & k & b & d & id & rest & Ec & Es & Et & Hrest).
  exists (hist ++ construction config c a p k b d id).
  assert (Hpre : getenvs (hist ++ construction config c a p k b d id)
                 = getenvs hist).
  { rewrite getenvs_app. simpl. apply app_nil_r. }
  rewrite Et, Es.
  unfold Blockchain, P2P, Consensus, Dispatcher, ActionPool, BlockSync,
    Explorer.
  cbn [itx.chain p2p consensus dispatcher actPool blocksync explorer].
  rewrite Es in Hrest. cbn [explorer] in Hrest.
  destruct (Explorer_IsTest (cfg_Explorer config)).
  - exists "". split; [exact Hpre |]. rewrite Hrest, <- app_assoc.
    reflexivity.
  - destruct Hrest as (env & ->). exists env. split; [exact Hpre |].
    rewrite <- app_assoc. cbn [orb]. reflexivity.
Qed.

Lemma newServer_selects_explorer_witness :
  exists pre env,
    fst (run env_development (@newServer sample cfg0 (Some 1%positive)) [])
    = pre ++ [Ev (@os_Getenv sample "APP_ENV") env]
          ++ (if String.eqb env "development"
              then [Ev (@test_warning sample) tt;
                    Ev (@explorer_NewTestSever sample false) (Some 7%positive)]
              else [Ev (@explorer_NewServer sample false (Some 1%positive)
                          (Some 3%positive) (Some 6%positive)
                          (Some 2%positive) (Some 5%positive))
                       (Some 7%positive)]).
Proof.
  destruct (@newServer_selects_explorer sample env_development cfg0
              (Some 1%positive) [] _ server0 eq_refl)
    as (pre & env & _ & Et).
  exists pre, env. exact Et.
Defined.

(** X13.  [newServer] ends the process when a component cannot be created.
    An error from [NewActPool], from [NewBlockSyncer] or from
    [NewDispatcher], and a nil [NewConsensus], are each followed by one
    logger event of level fatal, which is the last call: nothing is created
    after the failure, whatever came with the error, and no server is
    returned.  The checks are made in the order of the creations, before the
    chain is first used, so this holds for a nil chain too. *)
Theorem newServer_exits_when_a_creation_fails `{Imports} (o : Oracle) config
  chain hist :
  let new_p2p := network_NewOverlay (cfg_Network config) in
  let p := o _ hist new_p2p in
  let t1 := hist ++ [Ev new_p2p p] in
  let new_ap := actpool_NewActPool chain (cfg_ActPool config) in
  (forall a e,
     o _ t1 new_ap = (a, Some e) ->
     run o (newServer config chain) hist
     = (t1 ++ [Ev new_ap (a, Some e);
               fatal [F_Err e] "Fail to create actpool"], Exited))
  /\ (forall a,
        o _ t1 new_ap = (a, None) ->
        let t2 := t1 ++ [Ev new_ap (a, None)] in
        let new_bs := blocksync_NewBlockSyncer config chain a p in
        (forall b e,
           o _ t2 new_bs = (b, Some e) ->
           run o (newServer config chain) hist
           = (t2 ++ [Ev new_bs (b, Some e);
                     fatal [F_Err e] "Fail to create blockSyncer"], Exited))
        /\ (forall b,
              o _ t2 new_bs = (b, None) ->
              let t3 := t2 ++ [Ev new_bs (b, None)] in
              let new_cs := consensus_NewConsensus config chain a p in
              (o _ t3 new_cs = None ->
               run o (newServer config chain) hist
               = (t3 ++ [Ev new_cs None;
                         fatal [] "Failed to create Consensus"], Exited))
              /\ (forall k,
                    o _ t3 new_cs = Some k ->
                    let t4 := t3 ++ [Ev new_cs (Some k)] in
                    let new_d := dispatch_NewDispatcher config in
                    forall d e,
                      o _ t4 new_d = (d, Some e) ->
                      run o (newServer config chain) hist
                      = (t4 ++ [Ev new_d (d, Some e);
                                fatal [F_Err e] "Fail to create dispatcher"],
                         Exited)))).
Proof.
  cbv zeta. unfold newServer, fatal. rewrite !run_call.
  split.
  { intros a e Ea. rewrite Ea. cbn [bind logger_Fatal call run].
    destruct (o unit _ _). rewrite <- app_assoc. reflexivity. }
  intros a Ea. rewrite Ea. cbn [bind]. rewrite run_call.
  split.
  { intros b e Eb. rewrite Eb. cbn [bind logger_Fatal call run].
    destruct (o unit _ _). rewrite <- app_assoc. reflexivity. }
  intros b Eb. rewrite Eb. cbn [bind]. rewrite run_call.
  split.
  { intros Ek. rewrite Ek. cbn [bind logger_Fatal call run].
    destruct (o unit _ _). rewrite <- app_assoc. reflexivity. }
  intros k Ek d e Ed. rewrite Ek. cbn [bind].
  rewrite run_call, Ed.
  cbn [bind logger_Fatal call run].
  destruct (o unit _ _). rewrite <- app_assoc. reflexivity.
Qed.

Lemma newServer_exits_when_a_creation_fails_witness :
  run env_no_actpool (@newServer sample cfg0 (Some 1%positive)) []
  = ([Ev (@network_NewOverlay sample tt) (Some 5%positive)]
     ++ [Ev (@actpool_NewActPool sample (Some 1%positive) tt)
            (None, Some (errors_New "no action pool"));
         @fatal sample [F_Err (errors_New "no action pool")]
           "Fail to create actpool"],
     Exited).
Proof.
  destruct (@newServer_exits_when_a_creation_fails sample env_no_actpool cfg0
              (Some 1%positive) [])
    as (Hap & _).
  apply (Hap None (errors_New "no action pool")). reflexivity.
Defined.

Lemma renames_app `{Imports} (t1 t2 : list Event) :
  renames (t1 ++ t2) = renames t1 ++ renames t2.
Proof.
  induction t1 as [| [X e x] t1 IH]; simpl; [reflexivity |].
  destruct e; simpl; now rewrite IH.
Qed.

Lemma creations_app `{Imports} (t1 t2 : list Event) :
  creations (t1 ++ t2) = creations t1 ++ creations t2.
Proof.
  induction t1 as [| [X e x] t1 IH]; simpl; [reflexivity |].
  destruct e; simpl; now rewrite IH.
Qed.

Lemma every_quiet `{Imports} (t : list Event) :
  every quiet t -> renames t = [] /\ creations t = [].
Proof.
  induction t as [| [X e x] t IH]; simpl; [done |].
  intros [He Ht]. destruct e; simpl in He; try contradiction; now apply IH.
Qed.

(** [newServer] renames no file and creates no blockchain. *)
Lemma newServer_quiet `{Imports} config chain : only quiet (newServer config chain).
Proof.
  unfold newServer, logger_Fatal.
  repeat first
    [ exact I
    | progress cbn [only bind call recv quiet]
    | match goal with
      | |- forall _, _ => intros ?
      | |- _ /\ _ => split
      | |- context [let '(_, _) := ?r in _] => destruct r
      | |- context [recv ?x] => is_var x; destruct x
      | |- context [match ?x with _ => _ end] => destruct x
      end ].
Qed.

Lemma NewServer_finish_quiet `{Imports} config chain :
  only quiet (NewServer_finish config chain).
Proof.
  unfold NewServer_finish. destruct chain as [c |]; [| exact I].
  cbn [recv bind call only quiet]. intros id. split; [exact I |].
  intros u. split; [exact I |].
  apply only_bind; [apply newServer_quiet | intros s; exact I].
Qed.

(** X14.  [NewInMemTestServer] creates exactly one blockchain, with the
    in-memory state factory and the in-memory store, and renames no file,
    in every environment.  The server it returns has that blockchain; when
    the creation returns nil no server is returned: the run panics or ends
    the process. *)
Theorem NewInMemTestServer_creates_one_chain_in_memory `{Imports} (o : Oracle)
  config :
  let chain := o _ [] (in_mem_creation config) in
  let r := run o (NewInMemTestServer config) [] in
  creations (fst r) = [[InMemStateFactoryOption; InMemDaoOption]]
  /\ renames (fst r) = []
  /\ (forall s, snd r = Returned s -> Blockchain s = chain /\ chain <> None)
  /\ (chain = None -> snd r = Panicked \/ snd r = Exited).
Proof.
  intros chain r. subst r. unfold NewInMemTestServer. rewrite run_call.
  cbn [app]. fold (in_mem_creation config). fold chain.
  destruct (run_only o quiet (newServer config chain)
              [Ev (in_mem_creation config) chain] (newServer_quiet _ _))
    as (t & Et & Hq).
  destruct (every_quiet t Hq) as [Hr Hc].
  rewrite Et, creations_app, renames_app, Hr, Hc.
  split; [reflexivity |]. split; [reflexivity |].
  assert (Hret : forall s,
             snd (run o (newServer config chain)
                    [Ev (in_mem_creation config) chain]) = Returned s ->
             Blockchain s = chain /\ chain <> None).
  { intros s Es.
    destruct (run o (newServer config chain)
                [Ev (in_mem_creation config) chain]) as [t' out] eqn:E.
    simpl in Es. subst out.
    destruct (newServer_Returned o config chain _ t' s E)
      as (c & a & p & k & b & d & id & rest & Ec & Es & _).
    rewrite Es, Ec. split; [reflexivity | discriminate]. }
  split; [exact Hret |].
  intros Hnil.
  destruct (snd (run o (newServer config chain)
                   [Ev (in_mem_creation config) chain])) as [s | |] eqn:E;
    [| now left | now right].
  destruct (Hret s eq_refl) as [_ Hne]. contradiction.
Qed.

Lemma NewServer_finish_not_nil `{Imports} (o : Oracle) config chain hist :
  snd (run o (NewServer_finish config chain) hist) <> Returned None.
Proof.
  unfold NewServer_finish. destruct chain as [c |]; [| discriminate].
  rewrite run_recv_Some, run_call, run_log, run_bind.
  destruct (run o (newServer config (Some c)) _) as [t [s | |]];
    discriminate.
Qed.

(** X15.  [NewServer] renames files in the fall-back only.  In every
    environment the files it renames are the chain db and then the trie db,
    each to its own path with ".old" appended, or the chain db alone, or
    none.  When the first creation of the blockchain succeeds, or when the
    fall-back flag is unset, no file is renamed and the blockchain is
    created once, from the files (default state factory, BoltDB store). *)
Theorem NewServer_renames_only_in_fall_back `{Imports} (o : Oracle) config :
  let t := fst (run o (NewServer config) []) in
  renames t `prefix_of`
    [(Chain_ChainDBPath config, Chain_ChainDBPath config +:+ ".old");
     (Chain_TrieDBPath config, Chain_TrieDBPath config +:+ ".old")]
  /\ (o _ [] (first_creation config) <> None
      \/ Chain_EnableFallBackToFreshDB config = false ->
      renames t = []
      /\ creations t = [[DefaultStateFactoryOption; BoltDBDaoOption]]).
Proof.
  intros t. subst t.
  assert (Hplain : forall chain,
             renames (fst (run o (NewServer_finish config chain)
                             [Ev (first_creation config) chain])) = []
             /\ creations (fst (run o (NewServer_finish config chain)
                                  [Ev (first_creation config) chain]))
                = [[DefaultStateFactoryOption; BoltDBDaoOption]]).
  { intros chain.
    destruct (run_only o quiet (NewServer_finish config chain)
                [Ev (first_creation config) chain]
                (NewServer_finish_quiet _ _)) as (t & Et & Hq).
    destruct (every_quiet t Hq) as [Hr Hc].
    rewrite Et, creations_app, renames_app, Hr, Hc. split; reflexivity. }
  destruct (o _ [] (first_creation config)) as [c |] eqn:Ec.
  - assert (E : run o (NewServer config) []
                = run o (NewServer_finish config (Some c))
                    [Ev (first_creation config) (Some c)]).
    { unfold NewServer. rewrite run_call. fold (first_creation config).
      rewrite Ec. reflexivity. }
    rewrite E. destruct (Hplain (Some c)) as [Hr Hc].
    rewrite Hr. split; [apply prefix_nil | intros _; split; [reflexivity | exact Hc]].
  - destruct (Chain_EnableFallBackToFreshDB config) eqn:Eflag.
    + split; [| intros [Hne | Hf]; [contradiction | discriminate]].
      rewrite (NewServer_enters_fall_back o config Ec Eflag).
      unfold set_aside_and_retry. rewrite run_call.
      destruct (o _ (after_warning config) (rename_chain_db config))
        as [e |].
      { rewrite run_log. cbn [run fst]. rewrite !renames_app. simpl.
        apply prefix_cons, prefix_nil. }
      rewrite run_call.
      destruct (o _ _ (rename_trie_db config)) as [e |].
      { rewrite run_log. cbn [run fst]. rewrite !renames_app. simpl.
        apply prefix_cons, prefix_cons, prefix_nil. }
      rewrite run_call.
      match goal with
      | |- context [run o (NewServer_finish config ?chain) ?h] =>
          destruct (run_only o quiet (NewServer_finish config chain) h
                      (NewServer_finish_quiet _ _)) as (t & Et & Hq)
      end.
      destruct (every_quiet t Hq) as [Hr _].
      rewrite Et, !renames_app, Hr. simpl. reflexivity.
    + assert (E : run o (NewServer config) []
                  = run o (NewServer_finish config None)
                      [Ev (first_creation config) None]).
      { unfold NewServer. rewrite run_call. fold (first_creation config).
        rewrite Ec, Eflag. reflexivity. }
      rewrite E. destruct (Hplain None) as [Hr Hc].
      rewrite Hr. split; [apply prefix_nil | intros _; split; [reflexivity | exact Hc]].
Qed.

Lemma NewServer_renames_only_in_fall_back_witness :
  renames (fst (run env_ok (@NewServer sample cfg0) [])) = []
  /\ creations (fst (run env_no_chain (@NewServer sample cfg1) []))
     = [[DefaultStateFactoryOption; BoltDBDaoOption]].
Proof.
  split.
  - destruct (@NewServer_renames_only_in_fall_back sample env_ok cfg0)
      as (_ & Hno).
    apply Hno. left. discriminate.
  - destruct (@NewServer_renames_only_in_fall_back sample env_no_chain cfg1)
      as (_ & Hno).
    apply Hno. right. reflexivity.
Defined.

(** X16.  [NewServer] returns nil only when a rename has failed: if it
    returns nil, then the first creation of the blockchain returned nil, the
    fall-back flag is set, and the run ended with the failure of the rename
    of the chain db, or of the trie db, and the logger event for it.  In
    particular a nil blockchain is never answered by a nil server: without
    the flag, and after a second nil creation, [NewServer] panics
    instead. *)
Theorem NewServer_returns_nil_only_after_a_failed_rename `{Imports}
  (o : Oracle) config t :
  run o (NewServer config) [] = (t, Returned None) ->
  o _ [] (first_creation config) = None
  /\ Chain_EnableFallBackToFreshDB config = true
  /\ exists e,
      t = after_warning config
          ++ [Ev (rename_chain_db config) (Some e);
              Ev (logger_Event Error [F_Err e]
                    (Some "Failed to rename old chain db")) tt]
      \/ t = after_chain_db config
             ++ [Ev (rename_trie_db config) (Some e);
                 Ev (logger_Event Error [F_Err e]
                       (Some "Failed to rename old trie db")) tt].
Proof.
  intros E.
  assert (Hfin : forall chain hist,
             run o (NewServer_finish config chain) hist <> (t, Returned None)).
  { intros chain hist E'.
    apply (NewServer_finish_not_nil o config chain hist). now rewrite E'. }
  destruct (o _ [] (first_creation config)) as [c |] eqn:Ec.
  { exfalso. unfold NewServer in E. rewrite run_call in E.
    fold (first_creation config) in E. rewrite Ec in E.
    exact (Hfin _ _ E). }
  destruct (Chain_EnableFallBackToFreshDB config) eqn:Eflag.
  2:{ exfalso. unfold NewServer in E. rewrite run_call in E.
      fold (first_creation config) in E. rewrite Ec, Eflag in E.
      exact (Hfin _ _ E). }
  split; [reflexivity |]. split; [reflexivity |].
  rewrite (NewServer_enters_fall_back o config Ec Eflag) in E.
  unfold set_aside_and_retry in E. rewrite run_call in E.
  destruct (o _ (after_warning config) (rename_chain_db config)) as [e |].
  { rewrite run_log in E. cbn [run] in E. injection E as <-.
    exists e. left. reflexivity. }
  rewrite run_call in E. fold (after_chain_db config) in E.
  destruct (o _ (after_chain_db config) (rename_trie_db config)) as [e |].
  { rewrite run_log in E. cbn [run] in E. injection E as <-.
    exists e. right. reflexivity. }
  exfalso. rewrite run_call in E. exact (Hfin _ _ E).
Qed.

Lemma NewServer_returns_nil_only_after_a_failed_rename_witness :
  exists e,
    fst (run env_locked (@NewServer sample cfg0) [])
    = @after_warning sample cfg0
      ++ [Ev (@rename_chain_db sample cfg0) (Some e);
          Ev (@logger_Event sample Error [F_Err e]
                (Some "Failed to rename old chain db")) tt]
    \/ fst (run env_locked (@NewServer sample cfg0) [])
       = @after_chain_db sample cfg0
         ++ [Ev (@rename_trie_db sample cfg0) (Some e);
             Ev (@logger_Event sample Error [F_Err e]
                   (Some "Failed to rename old trie db")) tt].
Proof.
  destruct (@NewServer_returns_nil_only_after_a_failed_rename sample
              env_locked cfg0 _ eq_refl)
    as (_ & _ & e & He).
  exists e. exact He.
Defined.

End itx_properties.

Section explorer_properties.
Import Stdlib.Strings.Ascii.
Import testexplorer.

Lemma yields_ret {A} (a : A) (Q : A -> Prop) : Q a -> yields (ret a) Q.
Proof. intros Ha pos. exists a, pos. split; [reflexivity | split; [lia | exact Ha]]. Qed.

Lemma yields_bind {A B} (g : Gen A) (k : A -> Gen B) (Q : A -> Prop)
  (R : B -> Prop) :
  yields g Q -> (forall a, Q a -> yields (k a) R) -> yields (x <- g ;; k x) R.
Proof.
  intros Hg Hk pos.
  destruct (Hg pos) as (a & pos1 & Eg & Hle1 & Ha).
  destruct (Hk a Ha pos1) as (b & pos2 & Ek & Hle2 & Hb).
  exists b, pos2. unfold bind. rewrite Eg.
  split; [exact Ek | split; [lia | exact Hb]].
Qed.

Lemma yields_weaken {A} (g : Gen A) (Q R : A -> Prop) :
  yields g Q -> (forall a, Q a -> R a) -> yields g R.
Proof.
  intros Hg HQR pos. destruct (Hg pos) as (a & pos' & E & Hle & Ha).
  exists a, pos'. auto.
Qed.

(** The loop is not entered with an amount that is not 0. *)
Lemma randInt64_loop_nonzero draws n a :
  a <> 0%Z -> randInt64_loop draws n a = ret a.
Proof.
  intros Ha. apply Z.eqb_neq in Ha. destruct n; simpl; now rewrite Ha.
Qed.

(** The loop draws until a number is not reduced to 0. *)
Lemma randInt64_loop_first draws n pos :
  (exists j, j < n /\ (draws (pos + j)%nat mod 100000000 <> 0)%Z) ->
  exists j,
    j < n
    /\ (forall i, i < j -> (draws (pos + i)%nat mod 100000000 = 0)%Z)
    /\ (draws (pos + j)%nat mod 100000000 <> 0)%Z
    /\ randInt64_loop draws n 0 pos
       = Some ((draws (pos + j)%nat mod 100000000)%Z, S (pos + j)).
Proof.
  revert pos. induction n as [| n IH]; intros pos (j & Hj & Hnz); [lia |].
  destruct (Z.eq_dec (draws pos mod 100000000)%Z 0%Z) as [Hz | Hz].
  - destruct j as [| j]; [rewrite Nat.add_0_r in Hnz; contradiction |].
    destruct (IH (S pos)) as (j' & Hj' & Hzero & Hnz' & E).
    { exists j. split; [lia |]. now rewrite Nat.add_succ_comm. }
    exists (S j'). split; [lia |]. rewrite <- !Nat.add_succ_comm.
    split; [| split; [exact Hnz' |]].
    + intros [| i] Hi; [now rewrite Nat.add_0_r |].
      rewrite <- Nat.add_succ_comm. apply Hzero. lia.
    + simpl. unfold bind, rand_Intn. rewrite Hz. exact E.
  - exists 0. rewrite Nat.add_0_r. split; [lia |].
    split; [intros i Hi; lia |]. split; [exact Hz |].
    simpl. unfold bind, rand_Intn.
    now rewrite (randInt64_loop_nonzero draws n _ Hz).
Qed.

Lemma mod_in_range (x : Z) :
  (x mod 100000000 <> 0)%Z -> in_range (x mod 100000000).
Proof.
  intros Hnz. unfold in_range.
  pose proof (Z.mod_pos_bound x 100000000 ltac:(lia)). lia.
Qed.

(** X17.  [randInt64] returns the first number of the source that
    [rand.Intn] does not reduce to 0: it never returns 0, what it returns
    lies strictly between 0 and 100000000, and it has drawn once more than
    the number of zeros it met.  It returns as soon as the fuel exceeds the
    longest run of zeros of the source. *)
Theorem randInt64_returns_the_first_nonzero_draw draws fuel :
  lively draws fuel ->
  forall pos, exists j,
    j < fuel
    /\ (forall i, i < j -> (draws (pos + i)%nat mod 100000000 = 0)%Z)
    /\ randInt64 draws fuel pos
       = Some ((draws (pos + j)%nat mod 100000000)%Z, S (pos + j))
    /\ in_range (draws (pos + j)%nat mod 100000000).
Proof.
  intros Hlive pos.
  destruct (randInt64_loop_first draws fuel pos (Hlive pos))
    as (j & Hj & Hzero & Hnz & E).
  exists j. split; [exact Hj |]. split; [exact Hzero |].
  split; [exact E | now apply mod_in_range].
Qed.

Lemma draws0_lively : lively draws0 2.
Proof.
  intros pos. destruct (Nat.even pos) eqn:E.
  - exists 1. split; [lia |]. unfold draws0.
    rewrite Nat.add_1_r, Nat.even_succ, <- Nat.negb_even, E. simpl.
    pose proof (Z.mod_pos_bound (Z.of_nat (S pos)) 7 ltac:(lia)).
    rewrite Z.mod_small by lia. lia.
  - exists 0. split; [lia |]. unfold draws0.
    rewrite Nat.add_0_r, E.
    pose proof (Z.mod_pos_bound (Z.of_nat pos) 7 ltac:(lia)).
    rewrite Z.mod_small by lia. lia.
Qed.

Lemma randInt64_returns_the_first_nonzero_draw_witness :
  exists j,
    j < 2
    /\ randInt64 draws0 2 0 = Some ((draws0 (0 + j)%nat mod 100000000)%Z, S (0 + j))
    /\ in_range (draws0 (0 + j)%nat mod 100000000).
Proof.
  destruct (randInt64_returns_the_first_nonzero_draw draws0 2 draws0_lively 0)
    as (j & Hj & _ & E & Hr).
  exists j. split; [exact Hj | split; [exact E | exact Hr]].
Defined.

Lemma yields_randInt64 draws fuel :
  lively draws fuel -> yields (randInt64 draws fuel) in_range.
Proof.
  intros Hlive pos.
  destruct (randInt64_loop_first draws fuel pos (Hlive pos))
    as (j & Hj & Hzero & Hnz & E).
  eexists _, _. split; [exact E |]. split; [lia | now apply mod_in_range].
Qed.

(** A decimal numeral of a number that [randInt64] can return. *)
Lemma FormatInt_reads_back v :
  in_range v ->
  Z.of_int <$> NilZero.int_of_string (strconv_FormatInt v) = Some v.
Proof.
  intros [Hpos _]. unfold strconv_FormatInt.
  rewrite NilZero.isi.
  - simpl. f_equal. apply DecimalZ.of_to.
  - destruct v as [| p | p]; try lia. simpl. intros E. injection E as E.
    exact (Unsigned.to_uint_nonnil p E).
  - destruct v as [| p | p]; try lia. discriminate.
Qed.

(** X18.  Every string that [randString] makes is the decimal numeral of a
    number strictly between 0 and 100000000: it reads back as that number,
    it is not empty and it carries no sign. *)
Theorem randString_is_a_decimal_numeral draws fuel :
  lively draws fuel ->
  yields (randString draws fuel)
    (fun s => exists v, in_range v
                        /\ s = strconv_FormatInt v
                        /\ Z.of_int <$> NilZero.int_of_string s = Some v
                        /\ s <> ""
                        /\ forall rest, s <> String "-"%char rest).
Proof.
  intros Hlive. unfold randString.
  apply (yields_bind _ _ in_range); [now apply yields_randInt64 |].
  intros v Hv. apply yields_ret. exists v.
  split; [exact Hv |]. split; [reflexivity |].
  split; [now apply FormatInt_reads_back |].
  pose proof (FormatInt_reads_back v Hv) as Hread.
  destruct Hv as [Hpos _].
  destruct v as [| p | p]; try lia.
  unfold strconv_FormatInt in *. simpl in *.
  split.
  - intros E. rewrite E in Hread. discriminate Hread.
  - intros rest E. rewrite E in Hread. simpl in Hread.
    destruct (NilZero.uint_of_string rest) as [u |]; simpl in Hread;
      [| discriminate].
    injection Hread as Hread. unfold Z.of_uint in Hread.
    pose proof (N2Z.is_nonneg (Pos.of_uint u)). lia.
Qed.

Lemma randString_is_a_decimal_numeral_witness :
  exists s pos, randString draws0 2 0 = Some (s, pos)
                /\ exists v, in_range v /\ s = strconv_FormatInt v.
Proof.
  destruct (randString_is_a_decimal_numeral draws0 2 draws0_lively 0)
    as (s & pos & E & _ & v & Hv & Es & _).
  exists s, pos. split; [exact E |]. exists v. split; assumption.
Defined.

Lemma yields_randString draws fuel :
  lively draws fuel -> yields (randString draws fuel) (fun _ => True).
Proof.
  intros Hlive. unfold randString.
  apply (yields_bind _ _ in_range); [now apply yields_randInt64 |].
  intros v _. now apply yields_ret.
Qed.

(** The loop of the range queries appends exactly [n] items. *)
Lemma yields_append_each {A} (g : Gen A) (Q : A -> Prop) :
  yields g Q ->
  forall n xs, Forall Q xs ->
    yields (append_each n g xs)
      (fun l => length l = length xs + n /\ Forall Q l).
Proof.
  intros Hg. induction n as [| n IH]; intros xs Hxs; simpl.
  - apply yields_ret. split; [lia | exact Hxs].
  - apply (yields_bind _ _ Q); [exact Hg |].
    intros x Hx.
    apply (yields_weaken _ (fun l => length l = length (xs ++ [x]) + n
                                     /\ Forall Q l)).
    + apply IH. apply Forall_app. split; [exact Hxs | now constructor].
    + intros l [Hlen Hl]. split; [| exact Hl].
      rewrite Hlen, length_app. simpl. lia.
Qed.

(** One call of [randString], of [randInt64], in a function that draws. *)
Ltac draw_string :=
  apply (yields_bind _ _ (fun _ => True)); [now apply yields_randString |];
  intros ? _.

Ltac draw_int64 :=
  apply (yields_bind _ _ in_range); [now apply yields_randInt64 |];
  intros ? ?.

Lemma yields_randTransaction draws fuel :
  lively draws fuel ->
  yields (randTransaction draws fuel)
    (fun tx => Transfer_Fee tx = 12%Z /\ in_range (Transfer_Amount tx)
               /\ in_range (Transfer_Timestamp tx)).
Proof.
  intros Hlive. unfold randTransaction.
  draw_string. draw_string. draw_string.
  draw_int64. draw_int64. draw_string.
  apply yields_ret. simpl. auto.
Qed.



(** X19.  The transfer queries of the test explorer.
    [GetLastTransfersByRange] returns a nil error and exactly [limit]
    transfers, none when [limit <= 0] (and then nothing is drawn); each
    transfer has a fee of 12 and an amount and a timestamp strictly between
    0 and 100000000.  The result depends on [limit] and on the random
    source only: the start height, the offset and [showCoinBase] are
    ignored, and [GetTransfersByAddress] and [GetTransfersByBlockID] are the
    same query whatever the address or the block.  [GetTransferByID]
    returns one such transfer and a nil error. *)
Theorem GetLastTransfersByRange_returns_limit_transfers draws fuel
  startBlockHeight offset limit showCoinBase :
  lively draws fuel ->
  yields (GetLastTransfersByRange draws fuel startBlockHeight offset limit
            showCoinBase)
    (fun r => snd r = None
              /\ length (fst r) = Z.to_nat limit
              /\ Forall (fun tx => Transfer_Fee tx = 12%Z
                                   /\ in_range (Transfer_Amount tx)
                                   /\ in_range (Transfer_Timestamp tx))
                        (fst r))
  /\ ((limit <= 0)%Z ->
      forall pos,
        GetLastTransfersByRange draws fuel startBlockHeight offset limit
          showCoinBase pos = Some (([], None), pos))
  /\ (forall address blockID startBlockHeight' offset' showCoinBase',
        GetTransfersByAddress draws fuel address offset limit
        = GetLastTransfersByRange draws fuel startBlockHeight' offset' limit
            showCoinBase'
        /\ GetTransfersByBlockID draws fuel blockID offset limit
           = GetLastTransfersByRange draws fuel startBlockHeight' offset'
               limit showCoinBase')
  /\ (forall transferID,
        yields (GetTransferByID draws fuel transferID)
          (fun r => snd r = None /\ Transfer_Fee (fst r) = 12%Z
                    /\ in_range (Transfer_Amount (fst r))
                    /\ in_range (Transfer_Timestamp (fst r)))).
Proof.
  intros Hlive. split; [| split; [| split]].
  - unfold GetLastTransfersByRange.
    eapply yields_bind.
    + apply yields_append_each;
        [now apply yields_randTransaction | constructor].
    + intros txs [Hlen Htxs]. apply yields_ret. simpl. auto.
  - intros Hlimit pos. unfold GetLastTransfersByRange.
    replace (Z.to_nat limit) with 0 by lia. reflexivity.
  - intros. split; reflexivity.
  - intros transferID. unfold GetTransferByID.
    eapply yields_bind; [now apply yields_randTransaction |].
    intros tx Htx. apply yields_ret. simpl. auto.
Qed.

Lemma GetLastTransfersByRange_returns_limit_transfers_witness :
  exists txs pos,
    GetLastTransfersByRange draws0 2 0 10 3 true 0 = Some ((txs, None), pos)
    /\ length txs = 3
    /\ Forall (fun tx => Transfer_Fee tx = 12%Z) txs.
Proof.
  destruct (GetLastTransfersByRange_returns_limit_transfers draws0 2 0 10 3
              true draws0_lively) as (Hy & _).
  destruct (Hy 0) as ([txs err] & pos & E & _ & Herr & Hlen & Htxs).
  simpl in Herr, Hlen, Htxs. subst err. exists txs, pos.
  split; [exact E |]. split; [exact Hlen |].
  eapply Forall_impl; [exact Htxs |]. intros tx (Hfee & _). exact Hfee.
Defined.



(** X21.  [GetConsensusMetrics] returns a nil error, four delegates, a
    block producer that is the first of the four, and an epoch strictly
    between 0 and 100000000. *)
Theorem GetConsensusMetrics_names_the_first_delegate draws fuel :
  lively draws fuel ->
  yields (GetConsensusMetrics draws fuel)
    (fun r => snd r = None
              /\ length (ConsensusMetrics_LatestDelegates (fst r)) = 4
              /\ ConsensusMetrics_LatestDelegates (fst r) !! 0
                 = Some (ConsensusMetrics_LatestBlockProducer (fst r))
              /\ in_range (ConsensusMetrics_LatestEpoch (fst r))).
Proof.
  intros Hlive. unfold GetConsensusMetrics.
  draw_string. draw_string. draw_string.
  draw_string. cbv zeta. draw_int64.
  apply yields_ret. simpl. auto.
Qed.

Lemma GetConsensusMetrics_names_the_first_delegate_witness :
  exists m pos,
    GetConsensusMetrics draws0 2 0 = Some ((m, None), pos)
    /\ ConsensusMetrics_LatestDelegates m !! 0
       = Some (ConsensusMetrics_LatestBlockProducer m).
Proof.
  destruct (GetConsensusMetrics_names_the_first_delegate draws0 2
              draws0_lively 0)
    as ([m err] & pos & E & _ & Herr & _ & Hfirst & _).
  simpl in Herr, Hfirst. subst err. exists m, pos. split; assumption.
Defined.

(** X22.  The scalar queries of the test explorer never fail and never
    return 0: [GetBlockchainHeight] and [GetAddressBalance] return a nil
    error and a number strictly between 0 and 100000000,
    [GetAddressDetails] returns the address it was asked about with such a
    balance, and [GetCoinStatistic] such a height and such a supply. *)
Theorem scalar_queries_return_positive_numbers draws fuel :
  lively draws fuel ->
  yields (GetBlockchainHeight draws fuel)
    (fun r => snd r = None /\ in_range (fst r))
  /\ (forall address,
        yields (GetAddressBalance draws fuel address)
          (fun r => snd r = None /\ in_range (fst r)))
  /\ (forall address,
        yields (GetAddressDetails draws fuel address)
          (fun r => snd r = None
                    /\ AddressDetails_Address (fst r) = address
                    /\ in_range (AddressDetails_TotalBalance (fst r))))
  /\ yields (GetCoinStatistic draws fuel)
       (fun r => snd r = None
                 /\ in_range (CoinStatistic_Height (fst r))
                 /\ in_range (CoinStatistic_Supply (fst r))).
Proof.
  intros Hlive.
  split; [| split; [| split]]; try intros address;
    unfold GetBlockchainHeight, GetAddressBalance, GetAddressDetails,
      GetCoinStatistic;
    repeat draw_int64; apply yields_ret; simpl; auto.
Qed.

Lemma scalar_queries_return_positive_numbers_witness :
  exists d pos,
    GetAddressDetails draws0 2 "io1alice" 0 = Some ((d, None), pos)
    /\ AddressDetails_Address d = "io1alice"
    /\ in_range (AddressDetails_TotalBalance d).
Proof.
  destruct (scalar_queries_return_positive_numbers draws0 2 draws0_lively)
    as (_ & _ & Hd & _).
  destruct (Hd "io1alice" 0) as ([d err] & pos & E & _ & Herr & Ha & Hb).
  simpl in Herr, Ha, Hb. subst err. exists d, pos.
  split; [exact E |]. split; assumption.
Defined.

End explorer_properties.
